(** * Volume lifecycle of the ceph-csi plugin: controller (rbd) and node (cephfs)

    A shallow embedding of [controllerServer] (package rbd) and of
    [nodeServer] (package cephfs).  The gRPC handlers are stateful and
    fallible: they are written in a small state-and-error monad over an
    explicit world (the package-level maps, the persisted records, the
    backend, the mount table) that also keeps the log of the calls made to
    the external collaborators, with their outcomes.

    Conventions.  [int64] values are in [Z]; the handlers only compare and
    divide them, so nothing wraps, and [int] is taken to be 64 bits wide.
    Go's [/] on integers rounds towards zero and is [Z.quot].  Calls to
    [glog] change neither the answer nor the world and are left out.  The
    handlers run one at a time. *)

From Stdlib Require Import ZArith Lia.
From stdpp Require Import base option list strings gmap.

(** ** Go-side prelude: errors, gRPC status, the handler monad *)

(** [google.golang.org/grpc/codes], the three codes the handlers use. *)
Inductive Code := InvalidArgument | AlreadyExists | Internal.

#[global] Instance Code_eq_dec : EqDecision Code.
Proof. solve_decision. Defined.

(** [status.Error(code, msg)]. *)
Record Status := mkStatus { code : Code; message : string }.

(** A Go [error] value is kept as the text of [err.Error()]. *)
Definition error := string.

Section HandlerMonad.
Context {W : Type}.

(** A call returns a value, returns a non-nil [error], or panics (a nil
    dereference, a slice bound out of range). *)
Inductive Res (E A : Type) :=
| Ok (a : A)
| Err (e : E)
| Panic (msg : string).
#[global] Arguments Ok {E A} a.
#[global] Arguments Err {E A} e.
#[global] Arguments Panic {E A} msg.

(** A computation reads and writes the world and ends with a value, an
    error or a panic; the world written so far is kept on the error path,
    as in Go, where an early [return nil, err] undoes nothing. *)
Definition M (E A : Type) : Type := W -> Res E A * W.

Definition ret {E A} (a : A) : M E A := fun w => (Ok a, w).
Definition fail {E A} (e : E) : M E A := fun w => (Err e, w).

Definition bind {E A B} (m : M E A) (k : A -> M E B) : M E B :=
  fun w =>
    match m w with
    | (Ok a, w') => k a w'
    | (Err e, w') => (Err e, w')
    | (Panic s, w') => (Panic s, w')
    end.

Definition panic {E A} (s : string) : M E A := fun w => (Panic s, w).
Definition gets {E A} (f : W -> A) : M E A := fun w => (Ok (f w), w).
Definition modify {E} (f : W -> W) : M E unit := fun w => (Ok tt, f w).

(** [if err != nil { return nil, status.Error(c, err.Error()) }] *)
Definition orStatus {A} (c : Code) (m : M error A) : M Status A :=
  fun w =>
    match m w with
    | (Ok a, w') => (Ok a, w')
    | (Err e, w') => (Err (mkStatus c e), w')
    | (Panic s, w') => (Panic s, w')
    end.

(** An error that the caller inspects instead of returning it. *)
Definition catch {E E' A} (m : M E A) : M E' (Res E A) :=
  fun w =>
    match m w with
    | (Panic s, w') => (Panic s, w')
    | (r, w') => (Ok r, w')
    end.
End HandlerMonad.

Declare Scope go_scope.
Delimit Scope go_scope with go.
Notation "x <- m ;; k" := (bind m (fun x => k))
  (at level 100, m at next level, right associativity) : go_scope.
Notation "m ;; k" := (bind m (fun _ => k))
  (at level 100, right associativity) : go_scope.
Open Scope go_scope.

(** A Go slice or pointer that may be [nil]. *)
Definition nilable (A : Type) := option A.

(** [range] over a slice: a nil slice has no elements. *)
Definition elems {A} (s : nilable (list A)) : list A := default [] s.

(** ** Package rbd: the controller service *)

Module Rbd.

(** [const oneGB = 1073741824] *)
Definition oneGB : Z := 1073741824.

(** Modelled from the spec: the declaration of [rbdVolume] is not part of
    the sources at hand.  The spec's Volume has [VolID], [VolName], pool and
    placement parameters, and [VolSize] in bytes; the handlers read and
    write [VolName], [VolID], [Pool] and [VolSize]. *)
Record rbdVolume := mkRbdVolume {
  VolName : string;
  VolID : string;
  Pool : string;
  Placement : list (string * string);
  VolSize : Z                       (* int64 *)
}.

Definition with_VolName (n : string) (v : rbdVolume) : rbdVolume :=
  mkRbdVolume n (VolID v) (Pool v) (Placement v) (VolSize v).
Definition with_VolID (i : string) (v : rbdVolume) : rbdVolume :=
  mkRbdVolume (VolName v) i (Pool v) (Placement v) (VolSize v).
Definition with_VolSize (s : Z) (v : rbdVolume) : rbdVolume :=
  mkRbdVolume (VolName v) (VolID v) (Pool v) (Placement v) s.

(** *** The CSI messages the controller reads and writes *)

Inductive VolumeCapability_AccessMode_Mode :=
| UNKNOWN
| SINGLE_NODE_WRITER
| SINGLE_NODE_READER_ONLY
| MULTI_NODE_READER_ONLY
| MULTI_NODE_SINGLE_WRITER
| MULTI_NODE_MULTI_WRITER.

#[global] Instance Mode_eq_dec : EqDecision VolumeCapability_AccessMode_Mode.
Proof. solve_decision. Defined.

Record VolumeCapability_AccessMode := mkAccessMode {
  Mode : VolumeCapability_AccessMode_Mode
}.

Record VolumeCapability := mkVolumeCapability {
  AccessMode : nilable VolumeCapability_AccessMode
}.

(** The generated getters are nil-safe: they answer the zero value on a
    nil receiver. *)
Definition GetAccessMode (c : nilable VolumeCapability)
  : nilable VolumeCapability_AccessMode :=
  match c with Some c => AccessMode c | None => None end.

Definition GetMode (m : nilable VolumeCapability_AccessMode)
  : VolumeCapability_AccessMode_Mode :=
  match m with Some m => Mode m | None => UNKNOWN end.

Record CapacityRange := mkCapacityRange {
  RequiredBytes : Z;                (* int64 *)
  LimitBytes : Z
}.

Definition GetRequiredBytes (r : nilable CapacityRange) : Z :=
  match r with Some r => RequiredBytes r | None => 0%Z end.

Record CreateVolumeRequest := mkCreateVolumeRequest {
  Name : string;
  CapacityRange_ : nilable CapacityRange;
  VolumeCapabilities : nilable (list (nilable VolumeCapability));
  Parameters_ : gmap string string;
  ControllerCreateSecrets : gmap string string
}.

Definition GetName (r : CreateVolumeRequest) : string := Name r.
Definition GetCapacityRange (r : CreateVolumeRequest) := CapacityRange_ r.
Definition GetParameters (r : CreateVolumeRequest) := Parameters_ r.
Definition GetControllerCreateSecrets (r : CreateVolumeRequest) :=
  ControllerCreateSecrets r.

Record Volume := mkVolume {
  Id : string;
  CapacityBytes : Z;
  Attributes : gmap string string
}.

Record CreateVolumeResponse := mkCreateVolumeResponse {
  Volume_ : Volume
}.

Record DeleteVolumeRequest := mkDeleteVolumeRequest {
  VolumeId : string;
  ControllerDeleteSecrets : gmap string string
}.

Definition GetVolumeId (r : DeleteVolumeRequest) : string := VolumeId r.
Definition GetControllerDeleteSecrets (r : DeleteVolumeRequest) :=
  ControllerDeleteSecrets r.

Inductive DeleteVolumeResponse := mkDeleteVolumeResponse.
Inductive ControllerPublishVolumeResponse := mkControllerPublishVolumeResponse.
Inductive ControllerUnpublishVolumeResponse := mkControllerUnpublishVolumeResponse.

Record ValidateVolumeCapabilitiesRequest := mkValidateRequest {
  ReqVolumeCapabilities : nilable (list (nilable VolumeCapability))
}.

Record ValidateVolumeCapabilitiesResponse := mkValidateResponse {
  Supported : bool;
  Message : string
}.

Inductive ControllerServiceCapability_RPC_Type :=
| RPC_UNKNOWN
| RPC_CREATE_DELETE_VOLUME
| RPC_PUBLISH_UNPUBLISH_VOLUME.

(** [csicommon.DefaultControllerServer]: the driver's check of an advertised
    capability belongs to an external library and is taken as given. *)
Record CSIDriver := mkCSIDriver {
  ValidateControllerServiceRequest :
    ControllerServiceCapability_RPC_Type -> option error
}.

Record controllerServer := mkControllerServer { Driver : CSIDriver }.

(** *** The world of the controller *)

(** Calls to the collaborators and writes to the package-level index, in
    the order they happen, each with its outcome. *)
Inductive Event :=
| ERbdStatus (v : rbdVolume) (found : bool)
| ECreateRBDImage (v : rbdVolume) (volSizeGB : Z) (err : option error)
| EPersistVolInfo (id : string) (v : rbdVolume) (err : option error)
| ELoadVolInfo (id : string) (err : option error)
| EDeleteRBDImage (v : rbdVolume) (err : option error)
| EDeleteVolInfo (id : string) (err : option error)
| EIndexStore (id : string) (v : rbdVolume)
| EIndexDelete (id : string).

Record World := mkWorld {
  rbdVolumes : gmap string rbdVolume;      (* var rbdVolumes map[string]rbdVolume *)
  volInfo : gmap string rbdVolume;         (* records under PluginFolder/controller *)
  images : gmap (string * string) Z;       (* backend: (pool, image) -> size in GB *)
  uuids : nat;                             (* tokens drawn from uuid.NewUUID so far *)
  trace : list Event
}.

Definition log (e : Event) (w : World) : World :=
  mkWorld (rbdVolumes w) (volInfo w) (images w) (uuids w) (trace w ++ [e]).
Definition with_rbdVolumes (f : gmap string rbdVolume -> gmap string rbdVolume)
    (w : World) : World :=
  mkWorld (f (rbdVolumes w)) (volInfo w) (images w) (uuids w) (trace w).
Definition with_volInfo (f : gmap string rbdVolume -> gmap string rbdVolume)
    (w : World) : World :=
  mkWorld (rbdVolumes w) (f (volInfo w)) (images w) (uuids w) (trace w).
Definition with_images (f : gmap (string * string) Z -> gmap (string * string) Z)
    (w : World) : World :=
  mkWorld (rbdVolumes w) (volInfo w) (f (images w)) (uuids w) (trace w).
Definition next_uuid (w : World) : World :=
  mkWorld (rbdVolumes w) (volInfo w) (images w) (S (uuids w)) (trace w).

(** What the handlers cannot decide by themselves: the parsing helpers, the
    source of unique tokens, the text of [%v], and whether a call to the
    backend or to the file system fails.  A failure may depend on the whole
    world, its history included. *)
Record Externals := mkExternals {
  Sprintf_create : CreateVolumeRequest -> string;
  Sprintf_delete : DeleteVolumeRequest -> string;
  getRBDVolumeOptions : gmap string string -> error + rbdVolume;
  uuidString : nat -> string;
  rbdStatus_found : World -> rbdVolume -> gmap string string -> bool;
  createRBDImage_err : World -> rbdVolume -> Z -> gmap string string -> option error;
  persistVolInfo_err : World -> string -> rbdVolume -> option error;
  loadVolInfo_err : World -> string -> option error;
  deleteRBDImage_err : World -> rbdVolume -> gmap string string -> option error;
  deleteVolInfo_err : World -> string -> option error
}.

(** The events a call has added to the log. *)
Definition emitted (w w' : World) : list Event :=
  drop (length (trace w)) (trace w').

(** The first entry of the index that carries the name. *)
Definition lookupByName (m : gmap string rbdVolume) (volName : string)
  : option rbdVolume :=
  match list_find (fun kv : string * rbdVolume => VolName kv.2 = volName)
                  (map_to_list m) with
  | Some (_, (_, rbdVol)) => Some rbdVol
  | None => None
  end.

Section Controller.
Variable X : Externals.

Definition of_err (o : option error) : Res error unit :=
  match o with Some e => Err e | None => Ok tt end.

(** Modelled from the spec: [getRBDVolumeByName] is missing from the
    sources; the spec has it "look up existing volume by name" in the
    in-memory index.  The entries are visited in the order of
    [map_to_list]; Go leaves the order open, and it does not matter
    while no two entries share a name. *)
Definition getRBDVolumeByName (volName : string) : M error rbdVolume :=
  fun w =>
    match lookupByName (rbdVolumes w) volName with
    | Some rbdVol => (Ok rbdVol, w)
    | None =>
        (Err ("volume name " +:+ volName +:+ " does not exit in the volumes list"), w)
    end.

(** [uuid.NewUUID().String()] *)
Definition NewUUID {E} : M E string :=
  fun w => (Ok (uuidString X (uuids w)), next_uuid w).

(** Modelled from the spec: the helpers of rbd_util.go are missing from
    the sources.  The backend capability is [statusOf], [create] and
    [delete]; the store holds one record per volume ID, read and written
    atomically per key.  A call that fails changes nothing. *)
Definition rbdStatus {E} (v : rbdVolume) (secrets : gmap string string) : M E bool :=
  fun w =>
    let found := rbdStatus_found X w v secrets in
    (Ok found, log (ERbdStatus v found) w).

Definition createRBDImage (v : rbdVolume) (volSz : Z) (secrets : gmap string string)
  : M error unit :=
  fun w =>
    let o := createRBDImage_err X w v volSz secrets in
    (of_err o,
     log (ECreateRBDImage v volSz o)
       (match o with
        | Some _ => w
        | None => with_images <[(Pool v, VolName v) := volSz]> w
        end)).

Definition persistVolInfo (id : string) (v : rbdVolume) : M error unit :=
  fun w =>
    let o := persistVolInfo_err X w id v in
    (of_err o,
     log (EPersistVolInfo id v o)
       (match o with Some _ => w | None => with_volInfo <[id := v]> w end)).

Definition loadVolInfo (id : string) : M error rbdVolume :=
  fun w =>
    match loadVolInfo_err X w id, volInfo w !! id with
    | Some e, _ => (Err e, log (ELoadVolInfo id (Some e)) w)
    | None, Some v => (Ok v, log (ELoadVolInfo id None) w)
    | None, None =>
        let e := "no volume info for " +:+ id in
        (Err e, log (ELoadVolInfo id (Some e)) w)
    end.

Definition deleteRBDImage (v : rbdVolume) (secrets : gmap string string) : M error unit :=
  fun w =>
    let o := deleteRBDImage_err X w v secrets in
    (of_err o,
     log (EDeleteRBDImage v o)
       (match o with
        | Some _ => w
        | None => with_images (delete (Pool v, VolName v)) w
        end)).

Definition deleteVolInfo (id : string) : M error unit :=
  fun w =>
    let o := deleteVolInfo_err X w id in
    (of_err o,
     log (EDeleteVolInfo id o)
       (match o with Some _ => w | None => with_volInfo (delete id) w end)).

(** [rbdVolumes[volumeID] = *rbdVol] and [delete(rbdVolumes, volumeID)] *)
Definition index_store {E} (id : string) (v : rbdVolume) : M E unit :=
  modify (fun w => log (EIndexStore id v) (with_rbdVolumes <[id := v]> w)).
Definition index_delete {E} (id : string) : M E unit :=
  modify (fun w => log (EIndexDelete id) (with_rbdVolumes (delete id) w)).

Definition CreateVolume (cs : controllerServer) (req : CreateVolumeRequest)
  : M Status CreateVolumeResponse :=
  match ValidateControllerServiceRequest (Driver cs) RPC_CREATE_DELETE_VOLUME with
  | Some _ =>
      fail (mkStatus InvalidArgument
              ("invalid create volume req: " +:+ Sprintf_create X req))
  | None =>
  (* Check sanity of request Name, Volume Capabilities *)
  if (String.length (Name req) =? 0)%nat then
    fail (mkStatus InvalidArgument "Volume Name cannot be empty")
  else
  match VolumeCapabilities req with
  | None => fail (mkStatus InvalidArgument "Volume Capabilities cannot be empty")
  | Some _ =>
  (* Need to check for already existing volume name, and if found
     check for the requested capacity and already allocated capacity *)
  byName <- catch (getRBDVolumeByName (GetName req)) ;;
  match byName with
  | Panic s => panic s
  | Ok exVol =>
      if (VolSize exVol >=? GetRequiredBytes (GetCapacityRange req))%Z then
        (* exisiting volume is compatible with new request and should be reused. *)
        ret (mkCreateVolumeResponse
               (mkVolume (VolID exVol) (VolSize exVol) (GetParameters req)))
      else
        fail (mkStatus AlreadyExists
                ("Volume with the same name: " +:+ GetName req +:+
                 " but with different size already exist"))
  | Err _ =>
  match getRBDVolumeOptions X (GetParameters req) with
  | inl err => fail (mkStatus InvalidArgument err)
  | inr rbdVol =>
  (* Generating Volume Name and Volume ID *)
  let volName := GetName req in
  uniqueID <- NewUUID ;;
  let volName :=
    if (String.length volName =? 0)%nat
    then Pool rbdVol +:+ "-dynamic-pvc-" +:+ uniqueID
    else volName in
  let rbdVol := with_VolName volName rbdVol in
  let volumeID := "csi-rbd-" +:+ uniqueID in
  let rbdVol := with_VolID volumeID rbdVol in
  (* Volume Size - Default is 1 GiB *)
  let volSizeBytes :=
    match GetCapacityRange req with
    | Some _ => GetRequiredBytes (GetCapacityRange req)
    | None => oneGB
    end in
  let rbdVol := with_VolSize volSizeBytes rbdVol in
  let volSizeGB := (volSizeBytes ÷ 1024 ÷ 1024 ÷ 1024)%Z in
  (* Check if there is already RBD image with requested name *)
  found <- rbdStatus rbdVol (GetControllerCreateSecrets req) ;;
  (if negb found
   then orStatus Internal
          (createRBDImage rbdVol volSizeGB (GetControllerCreateSecrets req))
   else ret tt) ;;
  (* Storing volInfo into a persistent file. *)
  _ <- catch (persistVolInfo volumeID rbdVol) ;;
  index_store volumeID rbdVol ;;
  ret (mkCreateVolumeResponse
         (mkVolume volumeID volSizeBytes (GetParameters req)))
  end end end end.

Definition DeleteVolume (cs : controllerServer) (req : DeleteVolumeRequest)
  : M Status DeleteVolumeResponse :=
  match ValidateControllerServiceRequest (Driver cs) RPC_CREATE_DELETE_VOLUME with
  | Some _ =>
      fail (mkStatus InvalidArgument
              ("invalid delete volume req: " +:+ Sprintf_delete X req))
  | None =>
  (* For now the image get unconditionally deleted *)
  let volumeID := GetVolumeId req in
  rbdVol <- orStatus Internal (loadVolInfo volumeID) ;;
  (* Deleting rbd image *)
  orStatus Internal (deleteRBDImage rbdVol (GetControllerDeleteSecrets req)) ;;
  (* Removing persistent storage file for the unmapped volume *)
  orStatus Internal (deleteVolInfo volumeID) ;;
  index_delete volumeID ;;
  ret mkDeleteVolumeResponse
  end.

(** The loop of [ValidateVolumeCapabilities]: the answer is given at the
    first capability whose mode is not single-node-writer. *)
Fixpoint validateLoop (caps : list (nilable VolumeCapability))
  : ValidateVolumeCapabilitiesResponse :=
  match caps with
  | [] => mkValidateResponse true EmptyString
  | cap :: rest =>
      if decide (GetMode (GetAccessMode cap) <> SINGLE_NODE_WRITER)
      then mkValidateResponse false EmptyString
      else validateLoop rest
  end.

Definition ValidateVolumeCapabilities (cs : controllerServer)
    (req : ValidateVolumeCapabilitiesRequest)
  : @M World Status ValidateVolumeCapabilitiesResponse :=
  ret (validateLoop (elems (ReqVolumeCapabilities req))).

Definition ControllerUnpublishVolume (cs : controllerServer)
  : @M World Status ControllerUnpublishVolumeResponse :=
  ret mkControllerUnpublishVolumeResponse.

Definition ControllerPublishVolume (cs : controllerServer)
  : @M World Status ControllerPublishVolumeResponse :=
  ret mkControllerPublishVolumeResponse.

End Controller.

(** *** Vocabulary of the statements *)

(** The request passes the checks made before anything is looked up. *)
Definition accepted (cs : controllerServer) (req : CreateVolumeRequest) : Prop :=
  ValidateControllerServiceRequest (Driver cs) RPC_CREATE_DELETE_VOLUME = None /\
  Name req <> EmptyString /\
  is_Some (VolumeCapabilities req).

(** The bytes a new volume gets: [volSizeBytes] of [CreateVolume]. *)
Definition sizeOf (req : CreateVolumeRequest) : Z :=
  match GetCapacityRange req with
  | Some r => RequiredBytes r
  | None => oneGB
  end.

(** No two entries of the index carry the same name. *)
Definition names_unique (m : gmap string rbdVolume) : Prop :=
  forall k1 k2 v1 v2,
    m !! k1 = Some v1 -> m !! k2 = Some v2 -> VolName v1 = VolName v2 -> k1 = k2.

(** The three places a volume lives in are as they were. *)
Definition untouched (w w' : World) : Prop :=
  images w' = images w /\ volInfo w' = volInfo w /\ rbdVolumes w' = rbdVolumes w.

End Rbd.

(** ** Package cephfs: the node service *)

Module Cephfs.

Definition volumeID := string.

(** Modelled from the spec: the declarations of [volumeOptions],
    [credentials], [cephEntity], [cephConfigData] and [nodeCacheEntry] are
    missing from the sources; the fields are the ones the handlers use. *)
Record volumeOptions := mkVolumeOptions {
  Monitors : string;
  RootPath : string;
  Mounter : string;
  ProvisionVolume : bool
}.

Definition with_RootPath (p : string) (o : volumeOptions) : volumeOptions :=
  mkVolumeOptions (Monitors o) p (Mounter o) (ProvisionVolume o).

Record credentials := mkCredentials { id : string; key : string }.

Record cephEntity := mkCephEntity { Entity : string; Key : string }.

Record cephConfigData := mkCephConfigData {
  ConfMonitors : string;
  ConfVolumeID : volumeID
}.

(** [volOptions] is a [*volumeOptions]: the entry shares the object with
    the handler that made it, so it is kept as an address in the heap of
    the world. *)
Record nodeCacheEntry := mkNodeCacheEntry {
  volOptions : nat;
  cephAdminID : string
}.

Record NodeStageVolumeRequest := mkNodeStageVolumeRequest {
  StageVolumeId : string;
  StageStagingTargetPath : string;
  VolumeAttributes : gmap string string;
  NodeStageSecrets : gmap string string
}.

Record NodePublishVolumeRequest := mkNodePublishVolumeRequest {
  PublishVolumeId : string;
  PublishStagingTargetPath : string;
  PublishTargetPath : string;
  Readonly : bool
}.

Record NodeUnpublishVolumeRequest := mkNodeUnpublishVolumeRequest {
  UnpublishVolumeId : string;
  UnpublishTargetPath : string
}.

Record NodeUnstageVolumeRequest := mkNodeUnstageVolumeRequest {
  UnstageVolumeId : string;
  UnstageStagingTargetPath : string
}.

Inductive NodeStageVolumeResponse := mkNodeStageVolumeResponse.
Inductive NodePublishVolumeResponse := mkNodePublishVolumeResponse.
Inductive NodeUnpublishVolumeResponse := mkNodeUnpublishVolumeResponse.
Inductive NodeUnstageVolumeResponse := mkNodeUnstageVolumeResponse.

Inductive NodeServiceCapability_RPC_Type :=
| NODE_RPC_UNKNOWN
| STAGE_UNSTAGE_VOLUME.

Record NodeGetCapabilitiesResponse := mkNodeGetCapabilitiesResponse {
  Capabilities : list NodeServiceCapability_RPC_Type
}.

Inductive nodeServer := mkNodeServer.

(** *** The world of a node *)

Inductive Event :=
| ECreateMountPoint (path : string) (err : option error)
| EWriteToFile (conf : cephConfigData) (err : option error)
| EIsMountPoint (path : string) (r : error + bool)
| EStoreCephCredentials (volId : volumeID) (cr : credentials) (err : option error)
| ECreateCephUser (o : volumeOptions) (adminCr : credentials) (volId : volumeID)
    (r : error + cephEntity)
| EDeleteCephUser (adminCr : credentials) (volId : volumeID) (err : option error)
| EMount (path : string) (cr : credentials) (o : volumeOptions) (volId : volumeID)
    (err : option error)
| EBindMount (from to : string) (readOnly : bool) (err : option error)
| EUnmountVolume (path : string) (err : option error)
| ERemove (path : string)
| ECacheInsert (volId : volumeID) (ent : nodeCacheEntry)
| ECachePop (volId : volumeID) (ent : option nodeCacheEntry).

Record World := mkWorld {
  nodeCache : gmap volumeID nodeCacheEntry;   (* var nodeCache nodeCacheMap *)
  heap : list volumeOptions;                  (* the volumeOptions objects, by address *)
  mounts : gset string;                       (* the paths that are mount points *)
  trace : list Event
}.

Definition log (e : Event) (w : World) : World :=
  mkWorld (nodeCache w) (heap w) (mounts w) (trace w ++ [e]).
Definition with_nodeCache
    (f : gmap volumeID nodeCacheEntry -> gmap volumeID nodeCacheEntry)
    (w : World) : World :=
  mkWorld (f (nodeCache w)) (heap w) (mounts w) (trace w).
Definition with_heap (f : list volumeOptions -> list volumeOptions) (w : World)
  : World :=
  mkWorld (nodeCache w) (f (heap w)) (mounts w) (trace w).
Definition with_mounts (f : gset string -> gset string) (w : World) : World :=
  mkWorld (nodeCache w) (heap w) (f (mounts w)) (trace w).

(** The events a call has added to the log. *)
Definition emitted (w w' : World) : list Event :=
  drop (length (trace w)) (trace w').

(** Kinds of events. *)
Definition is_mount (e : Event) : bool :=
  match e with EMount _ _ _ _ _ => true | _ => false end.
Definition is_user_creation (e : Event) : bool :=
  match e with ECreateCephUser _ _ _ _ => true | _ => false end.
Definition is_cache_insert (e : Event) : bool :=
  match e with ECacheInsert _ _ => true | _ => false end.
Definition is_credential_store (e : Event) : bool :=
  match e with EStoreCephCredentials _ _ _ => true | _ => false end.

(** An event that neither mounts nor touches credentials or the cache. *)
Definition quiet (e : Event) : bool :=
  negb (is_mount e || is_user_creation e || is_cache_insert e
        || is_credential_store e).

(** A collaborator that answered with an error. *)
Definition failed (e : Event) : bool :=
  match e with
  | ECreateMountPoint _ (Some _) | EWriteToFile _ (Some _)
  | EIsMountPoint _ (inl _) | EStoreCephCredentials _ _ (Some _)
  | ECreateCephUser _ _ _ (inl _) | EDeleteCephUser _ _ (Some _)
  | EMount _ _ _ _ (Some _) | EBindMount _ _ _ (Some _)
  | EUnmountVolume _ (Some _) | ECachePop _ None => true
  | _ => false
  end.

Definition count (p : Event -> bool) (evs : list Event) : nat :=
  length (filter (fun e => p e = true) evs).

(** The request checks, the parsers of attributes and secrets, the constant
    prefix of entity names, and the failures of the file system, the mounter
    and the Ceph cluster. *)
Record Externals := mkExternals {
  validateNodeStageVolumeRequest : NodeStageVolumeRequest -> option error;
  validateNodePublishVolumeRequest : NodePublishVolumeRequest -> option error;
  validateNodeUnpublishVolumeRequest : NodeUnpublishVolumeRequest -> option error;
  validateNodeUnstageVolumeRequest : NodeUnstageVolumeRequest -> option error;
  newVolumeOptions_parse : gmap string string -> error + volumeOptions;
  getAdminCredentials : gmap string string -> error + credentials;
  getUserCredentials : gmap string string -> error + credentials;
  getVolumeRootPath_ceph : volumeID -> string;
  cephEntityClientPrefix : string;
  createMountPoint_err : World -> string -> option error;
  writeToFile_err : World -> cephConfigData -> option error;
  isMountPoint_err : World -> string -> option error;
  storeCephCredentials_err : World -> volumeID -> credentials -> option error;
  createCephUser_res :
    World -> volumeOptions -> credentials -> volumeID -> error + cephEntity;
  deleteCephUser_err : World -> credentials -> volumeID -> option error;
  mount_err :
    World -> string -> credentials -> volumeOptions -> volumeID -> option error;
  bindMount_err : World -> string -> string -> bool -> option error;
  unmountVolume_err : World -> string -> option error
}.

Section Node.
Variable X : Externals.

Definition of_err (o : option error) : Res error unit :=
  match o with Some e => Err e | None => Ok tt end.

(** *** Objects behind pointers *)

(** [&volumeOptions{...}]: a new object at the next free address. *)
Definition alloc {E} (o : volumeOptions) : M E nat :=
  fun w => (Ok (length (heap w)), with_heap (fun h => h ++ [o]) w).

(** [*p]; a pointer that leads nowhere is nil. *)
Definition deref {E} (p : nat) : M E volumeOptions :=
  fun w =>
    match heap w !! p with
    | Some o => (Ok o, w)
    | None => (Panic "invalid memory address or nil pointer dereference", w)
    end.

(** [p.RootPath = path] *)
Definition set_RootPath {E} (p : nat) (path : string) : M E unit :=
  o <- deref p ;;
  modify (with_heap <[p := with_RootPath path o]>).

(** *** The node cache *)

(** Modelled from the spec: [nodeCache.insert] and [nodeCache.pop] are
    missing from the sources.  The cache is a map from volume ID to the
    entry; [pop] removes and returns the entry, and the absence of an
    entry is an error. *)
Definition nodeCache_insert {E} (volId : volumeID) (ent : nodeCacheEntry)
  : M E unit :=
  modify (fun w => log (ECacheInsert volId ent)
                     (with_nodeCache <[volId := ent]> w)).

Definition nodeCache_pop (volId : volumeID) : M error nodeCacheEntry :=
  fun w =>
    match nodeCache w !! volId with
    | Some ent =>
        (Ok ent, log (ECachePop volId (Some ent))
                   (with_nodeCache (delete volId) w))
    | None =>
        (Err ("node cache entry for volume " +:+ volId +:+ " not found"),
         log (ECachePop volId None) w)
    end.

(** *** The collaborators *)

(** Modelled from the spec: the mounter, the file helpers and the Ceph
    user helpers are missing from the sources.  The mounter capability is
    [mount], [bindMount], [unmount] and [isMountPoint]; a path is a mount
    point from a successful mount to a successful unmount.  A call that
    fails changes nothing. *)
Definition newVolumeOptions (attrs : gmap string string) : M error nat :=
  match newVolumeOptions_parse X attrs with
  | inr o => alloc o
  | inl e => fail e
  end.

Definition createMountPoint (path : string) : M error unit :=
  fun w =>
    let o := createMountPoint_err X w path in
    (of_err o, log (ECreateMountPoint path o) w).

Definition writeToFile (conf : cephConfigData) : M error unit :=
  fun w =>
    let o := writeToFile_err X w conf in
    (of_err o, log (EWriteToFile conf o) w).

Definition of_sum {A} (r : error + A) : Res error A :=
  match r with inl e => Err e | inr a => Ok a end.

Definition isMountPoint (path : string) : M error bool :=
  fun w =>
    let r := match isMountPoint_err X w path with
             | Some e => inl e
             | None => inr (bool_decide (path ∈ mounts w))
             end in
    (of_sum r, log (EIsMountPoint path r) w).

Definition storeCephCredentials (volId : volumeID) (cr : credentials)
  : M error unit :=
  fun w =>
    let o := storeCephCredentials_err X w volId cr in
    (of_err o, log (EStoreCephCredentials volId cr o) w).

Definition createCephUser (p : nat) (adminCr : credentials) (volId : volumeID)
  : M error cephEntity :=
  o <- deref p ;;
  fun w =>
    let r := createCephUser_res X w o adminCr volId in
    (of_sum r, log (ECreateCephUser o adminCr volId r) w).

Definition deleteCephUser (adminCr : credentials) (volId : volumeID)
  : M error unit :=
  fun w =>
    let o := deleteCephUser_err X w adminCr volId in
    (of_err o, log (EDeleteCephUser adminCr volId o) w).

(** [newMounter(volOptions)] followed by [m.mount(...)] *)
Definition mount (path : string) (cr : credentials) (p : nat) (volId : volumeID)
  : M error unit :=
  opts <- deref p ;;
  fun w =>
    let o := mount_err X w path cr opts volId in
    (of_err o,
     log (EMount path cr opts volId o)
       (match o with Some _ => w | None => with_mounts (union {[path]}) w end)).

Definition bindMount (from to : string) (readOnly : bool) : M error unit :=
  fun w =>
    let o := bindMount_err X w from to readOnly in
    (of_err o,
     log (EBindMount from to readOnly o)
       (match o with Some _ => w | None => with_mounts (union {[to]}) w end)).

Definition unmountVolume (path : string) : M error unit :=
  fun w =>
    let o := unmountVolume_err X w path in
    (of_err o,
     log (EUnmountVolume path o)
       (match o with
        | Some _ => w
        | None => with_mounts (fun m => m ∖ {[path]}) w
        end)).

(** [os.Remove(path)], its result is dropped. *)
Definition os_Remove {E} (path : string) : M E unit :=
  modify (log (ERemove path)).

(** [s[n:]] *)
Definition slice_from {E} (s : string) (n : nat) : @M World E string :=
  if (n <=? String.length s)%nat
  then ret (String.substring n (String.length s - n) s)
  else panic "slice bounds out of range".

(** *** The handlers *)

Definition getOrCreateUser (volOptions : nat) (volId : volumeID)
    (req : NodeStageVolumeRequest) : M error credentials :=
  (* Retrieve the credentials (possibly create a new user as well) *)
  o <- deref volOptions ;;
  userCr <-
    (if ProvisionVolume o then
       (* The volume is provisioned dynamically, create a dedicated user.
          First, store admin credentials *)
       match getAdminCredentials X (NodeStageSecrets req) with
       | inl err => fail err
       | inr adminCr =>
           storeCephCredentials volId adminCr ;;
           nodeCache_insert volId (mkNodeCacheEntry volOptions (id adminCr)) ;;
           (* Then create the user *)
           ent <- createCephUser volOptions adminCr volId ;;
           userId <- slice_from (Entity ent)
                       (String.length (cephEntityClientPrefix X)) ;;
           (* Set the correct volume root path *)
           set_RootPath volOptions (getVolumeRootPath_ceph X volId) ;;
           ret (mkCredentials userId (Key ent))
       end
     else
       (* The volume is pre-made, credentials are supplied by the user *)
       match getUserCredentials X (NodeStageSecrets req) with
       | inl err => fail err
       | inr userCr =>
           nodeCache_insert volId (mkNodeCacheEntry volOptions EmptyString) ;;
           ret userCr
       end) ;;
  storeCephCredentials volId userCr ;;
  ret userCr.

Definition NodeStageVolume (ns : nodeServer) (req : NodeStageVolumeRequest)
  : M Status NodeStageVolumeResponse :=
  match validateNodeStageVolumeRequest X req with
  | Some err => fail (mkStatus InvalidArgument err)
  | None =>
  (* Configuration *)
  let stagingTargetPath := StageStagingTargetPath req in
  let volId : volumeID := StageVolumeId req in
  volOptions <- orStatus InvalidArgument
                  (newVolumeOptions (VolumeAttributes req)) ;;
  orStatus Internal (createMountPoint stagingTargetPath) ;;
  o <- deref volOptions ;;
  let cephConf := mkCephConfigData (Monitors o) volId in
  orStatus Internal (writeToFile cephConf) ;;
  (* Check if the volume is already mounted *)
  isMnt <- orStatus Internal (isMountPoint stagingTargetPath) ;;
  if isMnt : bool then
    ret mkNodeStageVolumeResponse
  else
  (* It's not, mount now *)
  cr <- orStatus Internal (getOrCreateUser volOptions volId req) ;;
  orStatus Internal (mount stagingTargetPath cr volOptions volId) ;;
  ret mkNodeStageVolumeResponse
  end.

Definition NodePublishVolume (ns : nodeServer) (req : NodePublishVolumeRequest)
  : M Status NodePublishVolumeResponse :=
  match validateNodePublishVolumeRequest X req with
  | Some err => fail (mkStatus InvalidArgument err)
  | None =>
  (* Configuration *)
  let targetPath := PublishTargetPath req in
  orStatus Internal (createMountPoint targetPath) ;;
  (* Check if the volume is already mounted *)
  isMnt <- orStatus Internal (isMountPoint targetPath) ;;
  if isMnt : bool then
    ret mkNodePublishVolumeResponse
  else
  (* It's not, mount now *)
  orStatus Internal
    (bindMount (PublishStagingTargetPath req) (PublishTargetPath req)
       (Readonly req)) ;;
  ret mkNodePublishVolumeResponse
  end.

Definition NodeUnpublishVolume (ns : nodeServer)
    (req : NodeUnpublishVolumeRequest) : M Status NodeUnpublishVolumeResponse :=
  match validateNodeUnpublishVolumeRequest X req with
  | Some err => fail (mkStatus InvalidArgument err)
  | None =>
  let targetPath := UnpublishTargetPath req in
  (* Unmount the bind-mount *)
  orStatus Internal (unmountVolume targetPath) ;;
  os_Remove targetPath ;;
  ret mkNodeUnpublishVolumeResponse
  end.

Definition NodeUnstageVolume (ns : nodeServer) (req : NodeUnstageVolumeRequest)
  : M Status NodeUnstageVolumeResponse :=
  match validateNodeUnstageVolumeRequest X req with
  | Some err => fail (mkStatus InvalidArgument err)
  | None =>
  let volId : volumeID := UnstageVolumeId req in
  let stagingTargetPath := UnstageStagingTargetPath req in
  (* Unmount the volume *)
  orStatus Internal (unmountVolume stagingTargetPath) ;;
  os_Remove stagingTargetPath ;;
  ent <- orStatus Internal (nodeCache_pop volId) ;;
  o <- deref (volOptions ent) ;;
  (if ProvisionVolume o then
     (* We've created a dedicated Ceph user in NodeStageVolume,
        it's about to be deleted here. *)
     deleted <- catch (deleteCephUser
                         (mkCredentials (cephAdminID ent) EmptyString) volId) ;;
     match deleted with
     | Err err =>
         (* Reinsert cache entry for retry *)
         nodeCache_insert volId ent ;;
         fail (mkStatus Internal err)
     | _ => ret tt
     end
   else ret tt) ;;
  ret mkNodeUnstageVolumeResponse
  end.

Definition NodeGetCapabilities (ns : nodeServer)
  : @M World Status NodeGetCapabilitiesResponse :=
  ret (mkNodeGetCapabilitiesResponse [STAGE_UNSTAGE_VOLUME]).
End Node.
End Cephfs.


(** ** Concrete worlds, used to run the handlers *)

Module RbdExample.
Import Rbd.

Definition parsed : rbdVolume := mkRbdVolume EmptyString EmptyString "rbd" [] 0.

(** Every collaborator succeeds; no image is found. *)
Definition healthy : Externals :=
  mkExternals (fun _ => "req") (fun _ => "req")
    (fun _ => inr parsed)
    (fun n => String.concat EmptyString (repeat "u" (S n)))
    (fun _ _ _ => false)
    (fun _ _ _ _ => None)
    (fun _ _ _ => None) (fun _ _ => None) (fun _ _ _ => None) (fun _ _ => None).

(** The same, with a store that cannot be written. *)
Definition readonly_store : Externals :=
  mkExternals (fun _ => "req") (fun _ => "req")
    (fun _ => inr parsed)
    (fun n => String.concat EmptyString (repeat "u" (S n)))
    (fun _ _ _ => false)
    (fun _ _ _ _ => None)
    (fun _ _ _ => Some "read-only file system")
    (fun _ _ => None) (fun _ _ _ => None) (fun _ _ => None).

Definition cs : controllerServer := mkControllerServer (mkCSIDriver (fun _ => None)).
Definition empty : World := mkWorld ∅ ∅ ∅ 0 [].

Definition caps : nilable (list (nilable VolumeCapability)) :=
  Some [Some (mkVolumeCapability (Some (mkAccessMode SINGLE_NODE_WRITER)))].

Definition pvc1 : CreateVolumeRequest :=
  mkCreateVolumeRequest "pvc-1" (Some (mkCapacityRange 2147483648 0)) caps ∅ ∅.
Definition pvc1_larger : CreateVolumeRequest :=
  mkCreateVolumeRequest "pvc-1" (Some (mkCapacityRange 3221225472 0)) caps ∅ ∅.
Definition pvc3_small : CreateVolumeRequest :=
  mkCreateVolumeRequest "pvc-3" (Some (mkCapacityRange 536870912 0)) caps ∅ ∅.

Definition vol1 : rbdVolume := mkRbdVolume "pvc-1" "csi-rbd-u" "rbd" [] 2147483648.
Definition vol3 : rbdVolume := mkRbdVolume "pvc-3" "csi-rbd-u" "rbd" [] 536870912.

(** The world after [pvc1] was provisioned in the empty one. *)
Definition after_pvc1 : World := snd (CreateVolume healthy cs pvc1 empty).

Definition delete1 : DeleteVolumeRequest := mkDeleteVolumeRequest "csi-rbd-u" ∅.
End RbdExample.

Module CephfsExample.
Import Cephfs.

Definition dynamic : volumeOptions :=
  mkVolumeOptions "mon1:6789" "/" "kernel" true.
Definition admin : credentials := mkCredentials "admin" "adminkey".
Definition user : credentials := mkCredentials "csi-user-vol-1" "userkey".
Definition entity : cephEntity := mkCephEntity "client.csi-user-vol-1" "userkey".

(** Every collaborator succeeds; volumes are provisioned dynamically. *)
Definition healthy : Externals :=
  mkExternals
    (fun _ => None) (fun _ => None) (fun _ => None) (fun _ => None)
    (fun _ => inr dynamic) (fun _ => inr admin) (fun _ => inr user)
    (fun volId => "/csi-volumes/" +:+ volId) "client."
    (fun _ _ => None) (fun _ _ => None) (fun _ _ => None)
    (fun _ _ _ => None)
    (fun _ _ _ _ => inr entity)
    (fun _ _ _ => None)
    (fun _ _ _ _ _ => None)
    (fun _ _ _ _ => None)
    (fun _ _ => None).

(** The cluster refuses to create users. *)
Definition no_new_users : Externals :=
  mkExternals
    (fun _ => None) (fun _ => None) (fun _ => None) (fun _ => None)
    (fun _ => inr dynamic) (fun _ => inr admin) (fun _ => inr user)
    (fun volId => "/csi-volumes/" +:+ volId) "client."
    (fun _ _ => None) (fun _ _ => None) (fun _ _ => None)
    (fun _ _ _ => None)
    (fun _ _ _ _ => inl "auth get-or-create failed")
    (fun _ _ _ => None)
    (fun _ _ _ _ _ => None)
    (fun _ _ _ _ => None)
    (fun _ _ => None).


(** The cluster refuses to delete users. *)
Definition no_user_deletion : Externals :=
  mkExternals
    (fun _ => None) (fun _ => None) (fun _ => None) (fun _ => None)
    (fun _ => inr dynamic) (fun _ => inr admin) (fun _ => inr user)
    (fun volId => "/csi-volumes/" +:+ volId) "client."
    (fun _ _ => None) (fun _ _ => None) (fun _ _ => None)
    (fun _ _ _ => None)
    (fun _ _ _ _ => inr entity)
    (fun _ _ _ => Some "auth del failed")
    (fun _ _ _ _ _ => None)
    (fun _ _ _ _ => None)
    (fun _ _ => None).

Definition ns : nodeServer := mkNodeServer.
Definition empty : World := mkWorld ∅ [] ∅ [].

Definition stage1 : NodeStageVolumeRequest :=
  mkNodeStageVolumeRequest "vol-1" "/staging/vol-1" ∅ ∅.
Definition unstage1 : NodeUnstageVolumeRequest :=
  mkNodeUnstageVolumeRequest "vol-1" "/staging/vol-1".


(** The world after [stage1] went through in the empty one. *)
Definition staged : World := snd (NodeStageVolume healthy ns stage1 empty).

(** Runs used further down. *)
Definition staged_again :=
  NodeStageVolume healthy ns stage1
    staged.

Definition stage_without_users :=
  NodeStageVolume no_new_users ns
    stage1 empty.


Definition unstage_user_kept :=
  NodeUnstageVolume no_user_deletion ns
    unstage1 staged.

Definition unstaged :=
  NodeUnstageVolume healthy ns unstage1 staged.

End CephfsExample.

(** ** Sequences of calls and what they keep *)

Module RbdRuns.
Import Rbd.

(** A call to the controller that can change the world. *)
Inductive ControllerCall :=
| CallCreateVolume (req : CreateVolumeRequest)
| CallDeleteVolume (req : DeleteVolumeRequest).

(** The world after one call, whatever the answer. *)
Definition callController (X : Externals) (cs : controllerServer)
    (c : ControllerCall) (w : World) : World :=
  match c with
  | CallCreateVolume req => snd (CreateVolume X cs req w)
  | CallDeleteVolume req => snd (DeleteVolume X cs req w)
  end.

(** The world after the calls, made one after the other. *)
Definition runController (X : Externals) (cs : controllerServer)
    (calls : list ControllerCall) (w : World) : World :=
  fold_left (fun w c => callController X cs c w) calls w.

(** Every entry of the index sits under its own [VolID]. *)
Definition keyed (m : gmap string rbdVolume) : Prop :=
  forall k v, m !! k = Some v -> VolID v = k.

(** Every key of the index was made from a token drawn earlier. *)
Definition ids_drawn (X : Externals) (w : World) : Prop :=
  forall k, is_Some (rbdVolumes w !! k) ->
            exists n, n < uuids w /\ k = "csi-rbd-" +:+ uuidString X n.

(** The index as the handlers leave it. *)
Definition index_ok (X : Externals) (w : World) : Prop :=
  names_unique (rbdVolumes w) /\ keyed (rbdVolumes w) /\ ids_drawn X w.

(** Every persisted record has an entry in the index. *)
Definition records_indexed (w : World) : Prop :=
  dom (volInfo w) ⊆ dom (rbdVolumes w).

End RbdRuns.

Module RbdCases.
Import Rbd RbdRuns.

(** The parameters cannot be parsed. *)
Definition bad_options : Externals :=
  mkExternals (fun _ => "req") (fun _ => "req")
    (fun _ => inl "missing required parameter pool")
    (fun n => String.concat EmptyString (repeat "u" (S n)))
    (fun _ _ _ => false)
    (fun _ _ _ _ => None)
    (fun _ _ _ => None) (fun _ _ => None) (fun _ _ _ => None) (fun _ _ => None).

(** The backend cannot create images. *)
Definition no_space : Externals :=
  mkExternals (fun _ => "req") (fun _ => "req")
    (fun _ => inr RbdExample.parsed)
    (fun n => String.concat EmptyString (repeat "u" (S n)))
    (fun _ _ _ => false)
    (fun _ _ _ _ => Some "no space left")
    (fun _ _ _ => None) (fun _ _ => None) (fun _ _ _ => None) (fun _ _ => None).

(** The backend reports every image as present. *)
Definition image_there : Externals :=
  mkExternals (fun _ => "req") (fun _ => "req")
    (fun _ => inr RbdExample.parsed)
    (fun n => String.concat EmptyString (repeat "u" (S n)))
    (fun _ _ _ => true)
    (fun _ _ _ _ => None)
    (fun _ _ _ => None) (fun _ _ => None) (fun _ _ _ => None) (fun _ _ => None).

Definition unnamed : CreateVolumeRequest :=
  mkCreateVolumeRequest EmptyString None RbdExample.caps ∅ ∅.

(** Make [pvc1], delete it, make it again. *)
Definition make_delete_make : list ControllerCall :=
  [CallCreateVolume RbdExample.pvc1;
   CallDeleteVolume RbdExample.delete1;
   CallCreateVolume RbdExample.pvc1].

(** The world after [pvc1] was made and deleted. *)
Definition after_delete1 : World :=
  snd (DeleteVolume RbdExample.healthy RbdExample.cs RbdExample.delete1
         RbdExample.after_pvc1).

(** The world after [pvc1] was made with a store that cannot be written. *)
Definition after_unpersisted : World :=
  snd (CreateVolume RbdExample.readonly_store RbdExample.cs RbdExample.pvc1
         RbdExample.empty).

End RbdCases.

Module CephfsRuns.
Import Cephfs.

(** The user ID cut out of the entity name: [ent.Entity[len(prefix):]]. *)
Definition userIdOf (X : Externals) (ent : cephEntity) : string :=
  String.substring (String.length (cephEntityClientPrefix X))
    (String.length (Entity ent) - String.length (cephEntityClientPrefix X))
    (Entity ent).

End CephfsRuns.

Module CephfsCases.
Import Cephfs.

Definition premade : volumeOptions :=
  mkVolumeOptions "mon1:6789" "/volumes/shared" "kernel" false.

(** Every collaborator succeeds; volumes are pre-made. *)
Definition healthy_premade : Externals :=
  mkExternals
    (fun _ => None) (fun _ => None) (fun _ => None) (fun _ => None)
    (fun _ => inr premade) (fun _ => inr CephfsExample.admin)
    (fun _ => inr CephfsExample.user)
    (fun volId => "/csi-volumes/" +:+ volId) "client."
    (fun _ _ => None) (fun _ _ => None) (fun _ _ => None)
    (fun _ _ _ => None)
    (fun _ _ _ _ => inr CephfsExample.entity)
    (fun _ _ _ => None)
    (fun _ _ _ _ _ => None)
    (fun _ _ _ _ => None)
    (fun _ _ => None).

(** The cluster answers with an entity whose name is too short. *)
Definition short_entity : Externals :=
  mkExternals
    (fun _ => None) (fun _ => None) (fun _ => None) (fun _ => None)
    (fun _ => inr CephfsExample.dynamic) (fun _ => inr CephfsExample.admin)
    (fun _ => inr CephfsExample.user)
    (fun volId => "/csi-volumes/" +:+ volId) "client."
    (fun _ _ => None) (fun _ _ => None) (fun _ _ => None)
    (fun _ _ _ => None)
    (fun _ _ _ _ => inr (mkCephEntity "x" "userkey"))
    (fun _ _ _ => None)
    (fun _ _ _ _ _ => None)
    (fun _ _ _ _ => None)
    (fun _ _ => None).

(** Nothing can be unmounted. *)
Definition busy : Externals :=
  mkExternals
    (fun _ => None) (fun _ => None) (fun _ => None) (fun _ => None)
    (fun _ => inr CephfsExample.dynamic) (fun _ => inr CephfsExample.admin)
    (fun _ => inr CephfsExample.user)
    (fun volId => "/csi-volumes/" +:+ volId) "client."
    (fun _ _ => None) (fun _ _ => None) (fun _ _ => None)
    (fun _ _ _ => None)
    (fun _ _ _ _ => inr CephfsExample.entity)
    (fun _ _ _ => None)
    (fun _ _ _ _ _ => None)
    (fun _ _ _ _ => None)
    (fun _ _ => Some "target is busy").

(** No deletion of a user was attempted so far. *)
Definition first_deletion (w : World) : bool :=
  forallb (fun e => match e with EDeleteCephUser _ _ _ => false | _ => true end)
          (trace w).

(** The first deletion of a user fails, the later ones succeed. *)
Definition flaky_deletion : Externals :=
  mkExternals
    (fun _ => None) (fun _ => None) (fun _ => None) (fun _ => None)
    (fun _ => inr CephfsExample.dynamic) (fun _ => inr CephfsExample.admin)
    (fun _ => inr CephfsExample.user)
    (fun volId => "/csi-volumes/" +:+ volId) "client."
    (fun _ _ => None) (fun _ _ => None) (fun _ _ => None)
    (fun _ _ _ => None)
    (fun _ _ _ _ => inr CephfsExample.entity)
    (fun w _ _ => if first_deletion w then Some "auth del failed" else None)
    (fun _ _ _ _ _ => None)
    (fun _ _ _ _ => None)
    (fun _ _ => None).

Definition publish1 : NodePublishVolumeRequest :=
  mkNodePublishVolumeRequest "vol-1" "/staging/vol-1" "/pods/a/vol-1" false.
Definition unpublish1 : NodeUnpublishVolumeRequest :=
  mkNodeUnpublishVolumeRequest "vol-1" "/pods/a/vol-1".

(** The world after [stage1] and [publish1]. *)
Definition published : World :=
  snd (NodePublishVolume CephfsExample.healthy CephfsExample.ns publish1
         CephfsExample.staged).

(** The world after [stage1] of a pre-made volume. *)
Definition staged_premade : World :=
  snd (NodeStageVolume healthy_premade CephfsExample.ns CephfsExample.stage1
         CephfsExample.empty).

(** The world after a first attempt to unstage that could not delete the
    user. *)
Definition half_unstaged : World :=
  snd (NodeUnstageVolume flaky_deletion CephfsExample.ns CephfsExample.unstage1
         CephfsExample.staged).

End CephfsCases.

(** ** Running a handler symbolically *)

(** Every test met on the way is split in two; the tests are those of the
    hypotheses, the goal is left alone. *)
Ltac split_test :=
  match goal with
  | H : context [match negb ?x with _ => _ end] |- _ => destruct x eqn:?
  | H : context [match ?x with _ => _ end] |- _ => destruct x eqn:?
  end.

Ltac run_handler H :=
  cbv beta delta [bind catch orStatus ret fail panic modify gets] in H;
  repeat (split_test; simplify_eq/=); simplify_eq/=.

(** Membership in a list that is given element by element. *)
Ltac in_list :=
  apply list_elem_of_In; simpl;
  repeat (first [left; reflexivity | right]).

Ltac elem_cases H :=
  repeat match type of H with
         | _ ∈ [] => by apply elem_of_nil in H
         | _ ∈ _ :: _ => apply elem_of_cons in H as [H|H]; simplify_eq
         | _ ∈ (if ?b then _ else _) ++ _ => destruct b; simpl in H
         | _ ∈ _ ++ _ => apply elem_of_app in H as [H|H]
         end.

Module RbdProps.
Import Rbd.

Example pvc1_fresh :
  CreateVolume RbdExample.healthy RbdExample.cs RbdExample.pvc1 RbdExample.empty
  = (Ok (mkCreateVolumeResponse (mkVolume "csi-rbd-u" 2147483648 ∅)),
     RbdExample.after_pvc1).
Proof. vm_compute. reflexivity. Qed.

Example pvc1_again :
  CreateVolume RbdExample.healthy RbdExample.cs RbdExample.pvc1 RbdExample.after_pvc1
  = (Ok (mkCreateVolumeResponse (mkVolume "csi-rbd-u" 2147483648 ∅)),
     RbdExample.after_pvc1).
Proof. vm_compute. reflexivity. Qed.

(** *** The lookup by name *)

Lemma lookupByName_Some (m : gmap string rbdVolume) n v :
  lookupByName m n = Some v -> VolName v = n /\ exists k, m !! k = Some v.
Proof.
  unfold lookupByName. intros H.
  destruct (list_find _ _) as [[i [k v']]|] eqn:Hfind; [|discriminate].
  injection H as ->.
  apply list_find_Some in Hfind as (Hi & Hname & _).
  split; [exact Hname|]. exists k.
  apply elem_of_map_to_list. apply list_elem_of_lookup. by exists i.
Qed.

Lemma lookupByName_None (m : gmap string rbdVolume) n :
  lookupByName m n = None -> forall k v, m !! k = Some v -> VolName v <> n.
Proof.
  unfold lookupByName. intros H k v Hk.
  destruct (list_find _ _) as [[i [k' v']]|] eqn:Hfind; [discriminate|].
  apply list_find_None in Hfind.
  rewrite Forall_forall in Hfind.
  apply (Hfind (k, v)). by apply elem_of_map_to_list.
Qed.

(** While the name belongs to one volume only, the order in which the
    entries are visited is immaterial. *)
Lemma lookupByName_unique (m : gmap string rbdVolume) n k v :
  m !! k = Some v -> VolName v = n ->
  (forall k' v', m !! k' = Some v' -> VolName v' = n -> v' = v) ->
  lookupByName m n = Some v.
Proof.
  intros Hk Hn Huniq.
  destruct (lookupByName m n) as [v'|] eqn:Hl.
  - apply lookupByName_Some in Hl as (Hn' & k' & Hk').
    f_equal. by apply (Huniq k').
  - exfalso. by apply (lookupByName_None _ _ Hl k v).
Qed.

Lemma lookupByName_insert_fresh (m : gmap string rbdVolume) n k v :
  lookupByName m n = None -> VolName v = n ->
  lookupByName (<[k := v]> m) n = Some v.
Proof.
  intros Hnone Hn. apply (lookupByName_unique _ _ k).
  - apply lookup_insert_eq.
  - exact Hn.
  - intros k' v' Hk' Hn'.
    destruct (decide (k = k')) as [->|Hne].
    + rewrite lookup_insert_eq in Hk'. congruence.
    + rewrite lookup_insert_ne in Hk' by done.
      exfalso. by apply (lookupByName_None _ _ Hnone k' v').
Qed.

(** *** The log grows at its end *)

Lemma emitted_refl w : emitted w w = [].
Proof. unfold emitted. apply drop_all. Qed.

Lemma emitted_app (w w' : World) evs :
  trace w' = trace w ++ evs -> emitted w w' = evs.
Proof. unfold emitted. intros ->. apply drop_app_length. Qed.

Lemma emitted_1 w w' e : trace w' = trace w ++ [e] -> emitted w w' = [e].
Proof. apply emitted_app. Qed.
Lemma emitted_2 w w' e1 e2 :
  trace w' = (trace w ++ [e1]) ++ [e2] -> emitted w w' = [e1; e2].
Proof. intros H. apply emitted_app. by rewrite H, <- app_assoc. Qed.
Lemma emitted_3 w w' e1 e2 e3 :
  trace w' = ((trace w ++ [e1]) ++ [e2]) ++ [e3] -> emitted w w' = [e1; e2; e3].
Proof. intros H. apply emitted_app. by rewrite H, <- !app_assoc. Qed.
Lemma emitted_4 w w' e1 e2 e3 e4 :
  trace w' = (((trace w ++ [e1]) ++ [e2]) ++ [e3]) ++ [e4] ->
  emitted w w' = [e1; e2; e3; e4].
Proof. intros H. apply emitted_app. by rewrite H, <- !app_assoc. Qed.

Ltac emitted_now :=
  first [ apply emitted_refl
        | apply emitted_1; reflexivity
        | apply emitted_2; reflexivity
        | apply emitted_3; reflexivity
        | apply emitted_4; reflexivity ].

(** Runs a handler symbolically: every test on the way is split. *)
Ltac run_in H := unfold of_err in H; run_handler H.

(** *** How a call to [CreateVolume] can end *)

Lemma quot_GB (z : Z) : (z ÷ 1024 ÷ 1024 ÷ 1024 = z ÷ 2 ^ 30)%Z.
Proof. rewrite !Z.quot_quot by lia. reflexivity. Qed.

Lemma CreateVolume_inv X cs req w r w' :
  CreateVolume X cs req w = (r, w') ->
  (* the request is refused *)
  (w' = w /\ exists msg, r = Err (mkStatus InvalidArgument msg))
  (* a volume of that name is known *)
  \/ (w' = w /\ accepted cs req /\
      exists exVol,
        lookupByName (rbdVolumes w) (GetName req) = Some exVol /\
        if (VolSize exVol >=? GetRequiredBytes (GetCapacityRange req))%Z
        then r = Ok (mkCreateVolumeResponse
                       (mkVolume (VolID exVol) (VolSize exVol) (GetParameters req)))
        else r = Err (mkStatus AlreadyExists
                        ("Volume with the same name: " +:+ GetName req +:+
                         " but with different size already exist")))
  (* a new volume is made *)
  \/ (accepted cs req /\
      lookupByName (rbdVolumes w) (GetName req) = None /\
      exists parsed,
        getRBDVolumeOptions X (GetParameters req) = inr parsed /\
        let volumeID := "csi-rbd-" +:+ uuidString X (uuids w) in
        let rbdVol := mkRbdVolume (GetName req) volumeID (Pool parsed)
                        (Placement parsed) (sizeOf req) in
        let volSizeGB := (sizeOf req ÷ 2 ^ 30)%Z in
        uuids w' = S (uuids w) /\
        ((* the image cannot be created *)
         (exists e,
            r = Err (mkStatus Internal e) /\
            emitted w w' = [ERbdStatus rbdVol false;
                            ECreateRBDImage rbdVol volSizeGB (Some e)] /\
            rbdVolumes w' = rbdVolumes w /\ volInfo w' = volInfo w /\
            images w' = images w)
         \/
         (* the volume is published *)
         (exists found o,
            r = Ok (mkCreateVolumeResponse
                      (mkVolume volumeID (sizeOf req) (GetParameters req))) /\
            emitted w w' =
              ERbdStatus rbdVol found ::
              (if found then [] else [ECreateRBDImage rbdVol volSizeGB None]) ++
              [EPersistVolInfo volumeID rbdVol o; EIndexStore volumeID rbdVol] /\
            rbdVolumes w' = <[volumeID := rbdVol]> (rbdVolumes w) /\
            volInfo w' = match o with
                         | Some _ => volInfo w
                         | None => <[volumeID := rbdVol]> (volInfo w)
                         end /\
            images w' = if found then images w
                        else <[(Pool rbdVol, VolName rbdVol) := volSizeGB]> (images w)))).
Proof.
  unfold CreateVolume, getRBDVolumeByName, NewUUID, rbdStatus, createRBDImage,
    persistVolInfo, index_store, sizeOf, GetCapacityRange, GetName.
  intros H. run_in H.
  all: try (left; split; [reflexivity | eexists; reflexivity]).
  all: match goal with
       | Hv : ValidateControllerServiceRequest _ _ = None,
         Hn : (String.length ?n =? 0)%nat = false,
         Hc : VolumeCapabilities _ = Some _ |- _ =>
           assert (accepted cs req)
             by (split; [exact Hv | split; [| by rewrite Hc]];
                 intros Heq; rewrite Heq in Hn; discriminate)
       end.
  all: try (right; left; split; [reflexivity | split; [assumption |]];
            eexists; split; [first [eassumption | reflexivity] |];
            match goal with Hs : (_ >=? _)%Z = _ |- _ => rewrite Hs end;
            reflexivity).
  all: right; right; split; [assumption |]; split; [reflexivity |];
       eexists; split; [reflexivity |]; cbn zeta; split; [reflexivity |];
       rewrite <- ?quot_GB.
  all: try (left; eexists; split; [reflexivity |]; split; [emitted_now |]; done).
  all: try (right; eexists true, _; split; [reflexivity |]; split; [emitted_now |]; done).
  all: try (right; eexists false, _; split; [reflexivity |]; split; [emitted_now |]; done).
Qed.

(** A request that passes the checks and names a known volume is answered
    from the index alone. *)
Lemma CreateVolume_known X cs req w exVol :
  accepted cs req ->
  lookupByName (rbdVolumes w) (GetName req) = Some exVol ->
  CreateVolume X cs req w =
  (if (VolSize exVol >=? GetRequiredBytes (GetCapacityRange req))%Z
   then Ok (mkCreateVolumeResponse
              (mkVolume (VolID exVol) (VolSize exVol) (GetParameters req)))
   else Err (mkStatus AlreadyExists
               ("Volume with the same name: " +:+ GetName req +:+
                " but with different size already exist")),
   w).
Proof.
  intros (Hv & Hn & [caps Hc]) Hl.
  unfold CreateVolume. rewrite Hv, Hc.
  destruct (Name req) as [|a n] eqn:Hname; [done|].
  cbv beta iota delta [bind catch ret fail getRBDVolumeByName String.length Nat.eqb].
  rewrite Hl.
  by destruct (VolSize exVol >=? _)%Z.
Qed.

(** *** Names stay unique *)

(** With unique names the lookup finds the one volume of that name, in
    whatever order the entries are visited. *)
Lemma names_unique_lookup (m : gmap string rbdVolume) n k v :
  names_unique m -> m !! k = Some v -> VolName v = n ->
  lookupByName m n = Some v.
Proof.
  intros Hu Hk Hn. apply (lookupByName_unique _ _ k); [done..|].
  intros k' v' Hk' Hn'.
  assert (k' = k) as -> by (apply (Hu k' k v' v); congruence).
  congruence.
Qed.

Lemma CreateVolume_names_unique X cs req w r w' :
  names_unique (rbdVolumes w) ->
  CreateVolume X cs req w = (r, w') ->
  names_unique (rbdVolumes w').
Proof.
  intros Hu Hrun.
  apply CreateVolume_inv in Hrun
    as [(-> & _) | [(-> & _) | (_ & Hl & parsed & _ & _ & Hnew)]]; [done..|].
  destruct Hnew as [(_ & _ & _ & -> & _) | (_ & _ & _ & _ & -> & _)]; [done|].
  intros k1 k2 v1 v2 H1 H2 Hn.
  destruct (decide ("csi-rbd-" +:+ uuidString X (uuids w) = k1)) as [E1|N1],
           (decide ("csi-rbd-" +:+ uuidString X (uuids w) = k2)) as [E2|N2].
  - congruence.
  - rewrite <- E1, lookup_insert_eq in H1. rewrite lookup_insert_ne in H2 by done.
    injection H1 as <-. exfalso.
    by apply (lookupByName_None _ _ Hl k2 v2).
  - rewrite <- E2, lookup_insert_eq in H2. rewrite lookup_insert_ne in H1 by done.
    injection H2 as <-. exfalso.
    by apply (lookupByName_None _ _ Hl k1 v1).
  - rewrite lookup_insert_ne in H1, H2 by done. by apply (Hu k1 k2 v1 v2).
Qed.

(** *** Creating a volume *)

(** C1. Idempotent create: after a successful [CreateVolume], a second call
    with the same name that asks for no more than the size the first call
    reported is answered with the same volume ID and the same capacity; the
    world, its log included, is left as it was, so the backend is not asked
    to create an image again. *)
Theorem CreateVolume_idempotent X cs req1 req2 w0 w1 resp1 :
  CreateVolume X cs req1 w0 = (Ok resp1, w1) ->
  GetName req2 = GetName req1 ->
  is_Some (VolumeCapabilities req2) ->
  (GetRequiredBytes (GetCapacityRange req2) <= CapacityBytes (Volume_ resp1))%Z ->
  exists resp2 w2,
    CreateVolume X cs req2 w1 = (Ok resp2, w2) /\
    Id (Volume_ resp2) = Id (Volume_ resp1) /\
    CapacityBytes (Volume_ resp2) = CapacityBytes (Volume_ resp1) /\
    w2 = w1 /\
    forall v sz o, ECreateRBDImage v sz o ∉ emitted w1 w2.
Proof.
  intros Hfirst Hname Hcaps Hsize.
  assert (exists exVol,
             accepted cs req2 /\
             lookupByName (rbdVolumes w1) (GetName req2) = Some exVol /\
             VolID exVol = Id (Volume_ resp1) /\
             VolSize exVol = CapacityBytes (Volume_ resp1))
    as (exVol & Hacc & Hl & Hid & Hsz).
  { apply CreateVolume_inv in Hfirst
      as [(_ & msg & ?) | [(-> & Hacc & exVol & Hl & Hr) | (Hacc & Hl & Hnew)]];
      [discriminate | |].
    - exists exVol.
      destruct (VolSize exVol >=? _)%Z; [|discriminate].
      simplify_eq/=. rewrite Hname.
      destruct Hacc as (? & ? & ?).
      repeat split; try done. unfold GetName in Hname. congruence.
    - destruct Hnew as (parsed & _ & _ & [(e & ? & _) | (found & o & Hr & _ & Hidx & _)]);
        [discriminate|].
      simplify_eq/=. eexists. rewrite Hname, Hidx.
      destruct Hacc as (? & ? & ?).
      split; [repeat split; try done; unfold GetName in Hname; congruence|].
      split; [by apply lookupByName_insert_fresh|]. done. }
  rewrite (CreateVolume_known X cs req2 w1 exVol Hacc Hl).
  rewrite Hsz. destruct (Z.geb_spec (CapacityBytes (Volume_ resp1))
                           (GetRequiredBytes (GetCapacityRange req2))); [|lia].
  eexists _, _. split; [reflexivity|]. simpl.
  repeat split; try done.
  intros v sz o. rewrite emitted_refl. apply not_elem_of_nil.
Qed.

(** C2. Conflicting create: a well-formed request whose name is that of a
    known volume of a strictly smaller size fails with [AlreadyExists]; the
    world comes back as it was: no call to the backend, no write to the
    store or to the index. *)
Theorem CreateVolume_conflict X cs req w exVol :
  accepted cs req ->
  lookupByName (rbdVolumes w) (GetName req) = Some exVol ->
  (VolSize exVol < GetRequiredBytes (GetCapacityRange req))%Z ->
  exists msg w',
    CreateVolume X cs req w = (Err (mkStatus AlreadyExists msg), w') /\
    rbdVolumes w' = rbdVolumes w /\ volInfo w' = volInfo w /\
    images w' = images w /\ emitted w w' = [].
Proof.
  intros Hacc Hl Hlt.
  rewrite (CreateVolume_known X cs req w exVol Hacc Hl).
  destruct (Z.geb_spec (VolSize exVol) (GetRequiredBytes (GetCapacityRange req)));
    [lia|].
  eexists _, _. split; [reflexivity|].
  repeat split. apply emitted_refl.
Qed.

(** C3, as the code has it. When the record cannot be persisted the call
    goes on: it stores the volume in the index and answers with success;
    the durable store keeps its former content. *)
Theorem CreateVolume_persist_failure X cs req w r w' id v e :
  CreateVolume X cs req w = (r, w') ->
  EPersistVolInfo id v (Some e) ∈ emitted w w' ->
  r = Ok (mkCreateVolumeResponse (mkVolume id (VolSize v) (GetParameters req))) /\
  rbdVolumes w' !! id = Some v /\
  volInfo w' = volInfo w.
Proof.
  intros Hrun Hev.
  apply CreateVolume_inv in Hrun
    as [(-> & _) | [(-> & _) | (Hacc & Hl & parsed & _ & _ & Hnew)]].
  - rewrite emitted_refl in Hev. by apply elem_of_nil in Hev.
  - rewrite emitted_refl in Hev. by apply elem_of_nil in Hev.
  - destruct Hnew as [(e' & _ & Hevs & _) | (found & o & Hr & Hevs & Hidx & Hst & _)];
      rewrite Hevs in Hev; elem_cases Hev.
    all: rewrite Hidx, lookup_insert_eq; done.
Qed.


(** C10. Size of the image: when a successful call creates an image, the
    backend is asked for the requested bytes divided by 2^30, rounded
    towards zero, whereas the answer, the index and the record handed to the
    store carry the bytes as requested.  A request for half a gibibyte thus
    creates an image of 0 GB and reports a capacity of 536870912 bytes. *)
Theorem CreateVolume_image_size :
  (forall X cs req w resp w' v sz o,
     CreateVolume X cs req w = (Ok resp, w') ->
     ECreateRBDImage v sz o ∈ emitted w w' ->
     sz = (CapacityBytes (Volume_ resp) ÷ 2 ^ 30)%Z /\
     CapacityBytes (Volume_ resp) = sizeOf req /\
     VolSize v = CapacityBytes (Volume_ resp) /\
     images w' !! (Pool v, VolName v) = Some sz /\
     rbdVolumes w' !! Id (Volume_ resp) = Some v /\
     exists po, EPersistVolInfo (Id (Volume_ resp)) v po ∈ emitted w w') /\
  (exists X cs req w resp w' v,
     (0 < GetRequiredBytes (GetCapacityRange req) < 2 ^ 30)%Z /\
     CreateVolume X cs req w = (Ok resp, w') /\
     ECreateRBDImage v 0 None ∈ emitted w w' /\
     images w' !! (Pool v, VolName v) = Some 0%Z /\
     CapacityBytes (Volume_ resp) <> 0%Z).
Proof.
  split.
  - intros X cs req w resp w' v sz o Hrun Hev.
    apply CreateVolume_inv in Hrun
      as [(_ & msg & ?) | [(-> & _) | (Hacc & Hl & parsed & _ & _ & Hnew)]];
      [discriminate | |].
    + rewrite emitted_refl in Hev. by apply elem_of_nil in Hev.
    + destruct Hnew as [(e' & ? & _) | (found & po & Hr & Hevs & Hidx & _ & Himg)];
        [discriminate|].
      simplify_eq/=. rewrite Hevs in Hev. elem_cases Hev.
      rewrite Himg, Hidx, Hevs, !lookup_insert_eq. simpl.
      repeat split; try done.
      exists po. in_list.
  - exists RbdExample.healthy, RbdExample.cs, RbdExample.pvc3_small,
      RbdExample.empty.
    eexists _, _, RbdExample.vol3.
    split; [simpl; lia|]. split; [vm_compute; reflexivity|].
    split; [vm_compute; set_solver|]. split; [vm_compute; reflexivity|].
    simpl. lia.
Qed.

(** *** Deleting a volume *)

(** C4. Order of removal in [DeleteVolume]: the image goes first, then the
    persisted record, then the entry of the index, and a step that fails
    ends the call before the next one.  The five ways a call can end are
    listed with the calls made and what is left: a record without its image
    can remain (fourth case), an image whose record is gone cannot. *)
Theorem DeleteVolume_order X cs req w r w' :
  DeleteVolume X cs req w = (r, w') ->
  let id := GetVolumeId req in
  (emitted w w' = [] /\ untouched w w' /\
   exists msg, r = Err (mkStatus InvalidArgument msg))
  \/ (exists e,
        emitted w w' = [ELoadVolInfo id (Some e)] /\ untouched w w' /\
        r = Err (mkStatus Internal e))
  \/ (exists v, volInfo w !! id = Some v /\
       let image := (Pool v, VolName v) in
       ((exists e,
           emitted w w' = [ELoadVolInfo id None; EDeleteRBDImage v (Some e)] /\
           untouched w w' /\
           r = Err (mkStatus Internal e))
        \/ (exists e,
              emitted w w' = [ELoadVolInfo id None; EDeleteRBDImage v None;
                              EDeleteVolInfo id (Some e)] /\
              images w' = delete image (images w) /\
              volInfo w' = volInfo w /\
              rbdVolumes w' = rbdVolumes w /\
              r = Err (mkStatus Internal e))
        \/ (emitted w w' = [ELoadVolInfo id None; EDeleteRBDImage v None;
                            EDeleteVolInfo id None; EIndexDelete id] /\
            images w' = delete image (images w) /\
            volInfo w' = delete id (volInfo w) /\
            rbdVolumes w' = delete id (rbdVolumes w) /\
            r = Ok mkDeleteVolumeResponse))).
Proof.
  unfold DeleteVolume, loadVolInfo, deleteRBDImage, deleteVolInfo, index_delete,
    untouched, GetVolumeId.
  intros H. run_in H.
  all: first
    [ left; split; [emitted_now|]; solve [eauto]
    | right; left; eexists; split; [emitted_now|]; solve [eauto]
    | right; right; eexists; split; [reflexivity|];
      first
        [ left; eexists; split; [emitted_now|]; solve [eauto]
        | right; left; eexists; split; [emitted_now|]; solve [eauto 6]
        | right; right; split; [emitted_now|]; solve [eauto 6] ] ].
Qed.

Lemma DeleteVolume_names_unique X cs req w r w' :
  names_unique (rbdVolumes w) ->
  DeleteVolume X cs req w = (r, w') ->
  names_unique (rbdVolumes w').
Proof.
  intros Hu Hrun.
  assert (rbdVolumes w' = rbdVolumes w \/
          rbdVolumes w' = delete (GetVolumeId req) (rbdVolumes w)) as [-> | ->].
  { revert Hrun.
    unfold DeleteVolume, loadVolInfo, deleteRBDImage, deleteVolInfo, index_delete.
    intros H. run_in H; auto. }
  - done.
  - intros k1 k2 v1 v2 H1 H2.
    apply lookup_delete_Some in H1 as [_ H1].
    apply lookup_delete_Some in H2 as [_ H2].
    by apply Hu.
Qed.

(** *** Validating capabilities *)

Lemma validateLoop_supported caps :
  Supported (validateLoop caps) = true <->
  Forall (fun cap => GetMode (GetAccessMode cap) = SINGLE_NODE_WRITER) caps.
Proof.
  induction caps as [|cap rest IH]; simpl.
  - split; [constructor | reflexivity].
  - destruct (decide (GetMode (GetAccessMode cap) <> SINGLE_NODE_WRITER)) as [Hne|He].
    + simpl. split; [discriminate|]. intros Hall. by inversion Hall.
    + apply dec_stable in He. rewrite IH. split.
      * by constructor.
      * intros Hall. by inversion Hall.
Qed.

(** C5. [ValidateVolumeCapabilities] answers, without an error and without
    touching the world, [supported = true] exactly when every capability of
    the request has the access mode single-node-writer; a request without
    capabilities is supported. *)
Theorem ValidateVolumeCapabilities_supported cs req w :
  exists resp,
    ValidateVolumeCapabilities cs req w = (Ok resp, w) /\
    (Supported resp = true <->
     Forall (fun cap => GetMode (GetAccessMode cap) = SINGLE_NODE_WRITER)
            (elems (ReqVolumeCapabilities req))) /\
    (elems (ReqVolumeCapabilities req) = [] -> Supported resp = true).
Proof.
  eexists. split; [reflexivity|]. split.
  - apply validateLoop_supported.
  - intros ->. reflexivity.
Qed.

(** *** The handlers at work *)

Lemma CreateVolume_idempotent_witness :
  exists resp2 w2,
    CreateVolume RbdExample.healthy RbdExample.cs RbdExample.pvc1
      RbdExample.after_pvc1 = (Ok resp2, w2) /\
    Id (Volume_ resp2) = "csi-rbd-u" /\
    CapacityBytes (Volume_ resp2) = 2147483648%Z /\
    w2 = RbdExample.after_pvc1 /\
    forall v sz o, ECreateRBDImage v sz o ∉ emitted RbdExample.after_pvc1 w2.
Proof.
  apply (CreateVolume_idempotent RbdExample.healthy RbdExample.cs
           RbdExample.pvc1 RbdExample.pvc1 RbdExample.empty
           RbdExample.after_pvc1 _ pvc1_fresh).
  - reflexivity.
  - eexists. reflexivity.
  - simpl. lia.
Defined.

Lemma CreateVolume_conflict_witness :
  exists msg w',
    CreateVolume RbdExample.healthy RbdExample.cs RbdExample.pvc1_larger
      RbdExample.after_pvc1 = (Err (mkStatus AlreadyExists msg), w') /\
    rbdVolumes w' = rbdVolumes RbdExample.after_pvc1 /\
    volInfo w' = volInfo RbdExample.after_pvc1 /\
    images w' = images RbdExample.after_pvc1 /\
    emitted RbdExample.after_pvc1 w' = [].
Proof.
  apply (CreateVolume_conflict RbdExample.healthy RbdExample.cs
           RbdExample.pvc1_larger RbdExample.after_pvc1 RbdExample.vol1).
  - split; [reflexivity|]. split; [discriminate|]. eexists. reflexivity.
  - vm_compute. reflexivity.
  - simpl. lia.
Defined.

(** C3 fails on the code: with a store that cannot be written, the call
    makes the image, is told that the record could not be stored, and
    answers with success all the same. *)
Lemma CreateVolume_persist_failure_reports_success :
  fst (CreateVolume RbdExample.readonly_store RbdExample.cs RbdExample.pvc1
         RbdExample.empty)
  = Ok (mkCreateVolumeResponse (mkVolume "csi-rbd-u" 2147483648 ∅)) /\
  emitted RbdExample.empty
    (snd (CreateVolume RbdExample.readonly_store RbdExample.cs RbdExample.pvc1
            RbdExample.empty))
  = [ERbdStatus RbdExample.vol1 false;
     ECreateRBDImage RbdExample.vol1 2 None;
     EPersistVolInfo "csi-rbd-u" RbdExample.vol1 (Some "read-only file system");
     EIndexStore "csi-rbd-u" RbdExample.vol1] /\
  volInfo (snd (CreateVolume RbdExample.readonly_store RbdExample.cs
                  RbdExample.pvc1 RbdExample.empty)) = ∅.
Proof. vm_compute. repeat split. Qed.

Lemma CreateVolume_persist_failure_witness :
  fst (CreateVolume RbdExample.readonly_store RbdExample.cs RbdExample.pvc1
         RbdExample.empty)
  = Ok (mkCreateVolumeResponse (mkVolume "csi-rbd-u" 2147483648 ∅)) /\
  rbdVolumes (snd (CreateVolume RbdExample.readonly_store RbdExample.cs
                     RbdExample.pvc1 RbdExample.empty)) !! "csi-rbd-u"
  = Some RbdExample.vol1 /\
  volInfo (snd (CreateVolume RbdExample.readonly_store RbdExample.cs
                  RbdExample.pvc1 RbdExample.empty)) = ∅.
Proof.
  apply (CreateVolume_persist_failure RbdExample.readonly_store RbdExample.cs
           RbdExample.pvc1 RbdExample.empty _ _ "csi-rbd-u" RbdExample.vol1
           "read-only file system").
  - apply surjective_pairing.
  - vm_compute. in_list.
Defined.


Lemma CreateVolume_image_size_witness :
  (0 = 536870912 ÷ 2 ^ 30)%Z /\
  images (snd (CreateVolume RbdExample.healthy RbdExample.cs
                 RbdExample.pvc3_small RbdExample.empty)) !! ("rbd", "pvc-3")
  = Some 0%Z.
Proof.
  destruct (proj1 CreateVolume_image_size RbdExample.healthy RbdExample.cs
              RbdExample.pvc3_small RbdExample.empty
              (mkCreateVolumeResponse (mkVolume "csi-rbd-u" 536870912 ∅))
              (snd (CreateVolume RbdExample.healthy RbdExample.cs
                      RbdExample.pvc3_small RbdExample.empty))
              RbdExample.vol3 0%Z None)
    as (Hsz & _ & _ & Himg & _).
  - vm_compute. reflexivity.
  - vm_compute. in_list.
  - split; [exact Hsz | exact Himg].
Defined.

Lemma DeleteVolume_order_witness :
  emitted RbdExample.after_pvc1
    (snd (DeleteVolume RbdExample.healthy RbdExample.cs RbdExample.delete1
            RbdExample.after_pvc1))
  = [ELoadVolInfo "csi-rbd-u" None; EDeleteRBDImage RbdExample.vol1 None;
     EDeleteVolInfo "csi-rbd-u" None; EIndexDelete "csi-rbd-u"].
Proof.
  destruct (DeleteVolume_order RbdExample.healthy RbdExample.cs
              RbdExample.delete1 RbdExample.after_pvc1 _ _
              (surjective_pairing
                 (DeleteVolume RbdExample.healthy RbdExample.cs
                    RbdExample.delete1 RbdExample.after_pvc1)))
    as [(_ & _ & msg & Hr) | [(e & _ & _ & Hr) | (v & Hv & Hcases)]].
  - vm_compute in Hr. discriminate.
  - vm_compute in Hr. discriminate.
  - vm_compute in Hv. injection Hv as <-.
    destruct Hcases as [(e & _ & _ & Hr) | [(e & _ & _ & _ & _ & Hr) | (Hevs & _)]].
    + vm_compute in Hr. discriminate.
    + vm_compute in Hr. discriminate.
    + exact Hevs.
Defined.

End RbdProps.

Module CephfsProps.
Import Cephfs.

Example stage1_fresh :
  NodeStageVolume CephfsExample.healthy CephfsExample.ns CephfsExample.stage1
    CephfsExample.empty
  = (Ok mkNodeStageVolumeResponse, CephfsExample.staged).
Proof. vm_compute. reflexivity. Qed.


Lemma node_emitted_refl w : emitted w w = [].
Proof. unfold emitted. apply drop_all. Qed.

Lemma node_emitted_app (w w' : World) evs :
  trace w' = trace w ++ evs -> emitted w w' = evs.
Proof. unfold emitted. intros ->. apply drop_app_length. Qed.

(** An object that was just made is found at its address, also after one
    of its fields was written. *)
Ltac heap_step :=
  match goal with
  | H : context [(?l ++ [?v]) !! length ?l] |- _ =>
      rewrite (list_lookup_middle l [] v (length l) eq_refl) in H
  | H : context [<[length ?l := ?x]> (?l ++ [?v]) !! length ?l] |- _ =>
      rewrite (list_lookup_insert_eq (l ++ [v]) (length l) x) in H
        by (rewrite length_app; simpl; lia)
  end.

Ltac run_node H :=
  unfold NodeStageVolume, NodeUnstageVolume, NodePublishVolume,
    NodeUnpublishVolume, getOrCreateUser, newVolumeOptions, alloc,
    createMountPoint, writeToFile, isMountPoint, storeCephCredentials,
    createCephUser, deleteCephUser, mount, bindMount, unmountVolume, os_Remove,
    set_RootPath, slice_from, nodeCache_insert, nodeCache_pop, deref,
    of_err, of_sum in H;
  cbv beta delta [bind catch orStatus ret fail panic modify gets] in H;
  simpl in H;
  repeat (first [heap_step | split_test]; simplify_eq/=); simplify_eq/=.

(** Reads off the events of a run from the final world. *)
Ltac read_log :=
  unfold emitted in *; simpl in *;
  rewrite <- ?app_assoc in *;
  rewrite ?drop_app_length, ?drop_all in *; simpl in *.

Lemma emitted_trans (w0 w1 w2 : World) e1 e2 :
  trace w1 = trace w0 ++ e1 -> trace w2 = trace w1 ++ e2 ->
  emitted w0 w2 = emitted w0 w1 ++ emitted w1 w2.
Proof.
  intros H1 H2.
  rewrite (node_emitted_app w0 w1 e1 H1), (node_emitted_app w1 w2 e2 H2).
  apply node_emitted_app. by rewrite H2, H1, <- app_assoc.
Qed.

Lemma count_app p (l1 l2 : list Event) :
  count p (l1 ++ l2) = count p l1 + count p l2.
Proof. unfold count. by rewrite filter_app, length_app. Qed.

Lemma count_quiet p (l : list Event) :
  forallb quiet l = true ->
  (forall e, quiet e = true -> p e = false) ->
  count p l = 0.
Proof.
  intros Hq Hp. unfold count.
  induction l as [|e l IH]; [reflexivity|].
  simpl in Hq. apply andb_true_iff in Hq as [He Hl].
  rewrite filter_cons, (Hp e He).
  destruct (decide (false = true)); [discriminate|]. by apply IH.
Qed.

Ltac log_grows :=
  eexists; simpl; rewrite <- ?app_assoc;
  first [reflexivity | symmetry; apply app_nil_r].

(** The handlers only add to the log. *)
Lemma NodeStageVolume_log X ns req w r w' :
  NodeStageVolume X ns req w = (r, w') -> exists evs, trace w' = trace w ++ evs.
Proof. intros H. run_node H; log_grows. Qed.

Lemma NodeUnstageVolume_log X ns req w r w' :
  NodeUnstageVolume X ns req w = (r, w') -> exists evs, trace w' = trace w ++ evs.
Proof. intros H. run_node H; log_grows. Qed.

(** *** Staging *)

(** A call that finds the staging path mounted stops at the probe. *)
Lemma NodeStageVolume_probe_true X ns req w r w' :
  NodeStageVolume X ns req w = (r, w') ->
  EIsMountPoint (StageStagingTargetPath req) (inr true) ∈ emitted w w' ->
  r = Ok mkNodeStageVolumeResponse /\
  nodeCache w' = nodeCache w /\
  mounts w' = mounts w /\
  forallb quiet (emitted w w') = true /\
  exists conf,
    emitted w w' = [ECreateMountPoint (StageStagingTargetPath req) None;
                    EWriteToFile conf None;
                    EIsMountPoint (StageStagingTargetPath req) (inr true)].
Proof.
  intros H Hev. run_node H; read_log; elem_cases Hev.
  all: try congruence.
  all: match goal with Hb : bool_decide _ = true |- _ => rewrite ?Hb end.
  all: repeat split; eexists; reflexivity.
Qed.

Ltac probe_facts :=
  repeat match goal with
         | H : bool_decide _ = true |- _ => apply bool_decide_eq_true in H
         | H : bool_decide _ = false |- _ => apply bool_decide_eq_false in H
         | H : true = bool_decide _ |- _ => symmetry in H
         | H : false = bool_decide _ |- _ => symmetry in H
         end.

(** On a path that is mounted already, a well-formed call neither mounts
    nor touches credentials or the cache; it succeeds unless the mount
    point, the configuration file or the probe itself fails. *)
Lemma NodeStageVolume_again X ns req w r w' o :
  NodeStageVolume X ns req w = (r, w') ->
  StageStagingTargetPath req ∈ mounts w ->
  validateNodeStageVolumeRequest X req = None ->
  newVolumeOptions_parse X (VolumeAttributes req) = inr o ->
  forallb quiet (emitted w w') = true /\
  nodeCache w' = nodeCache w /\
  mounts w' = mounts w /\
  (r = Ok mkNodeStageVolumeResponse \/ exists e, r = Err (mkStatus Internal e)) /\
  (forallb (fun e => negb (failed e)) (emitted w w') = true ->
   r = Ok mkNodeStageVolumeResponse).
Proof.
  intros H Hin Hv Hp. run_node H; read_log; probe_facts.
  all: try contradiction.
  all: repeat split; eauto; discriminate.
Qed.

(** A call that succeeds on a path that was not mounted mounts once, goes
    once through the credentials, and leaves the path mounted. *)
Lemma NodeStageVolume_first X ns req w resp w' :
  NodeStageVolume X ns req w = (Ok resp, w') ->
  StageStagingTargetPath req ∉ mounts w ->
  StageStagingTargetPath req ∈ mounts w' /\
  validateNodeStageVolumeRequest X req = None /\
  count is_mount (emitted w w') = 1 /\
  count is_cache_insert (emitted w w') = 1 /\
  exists o,
    newVolumeOptions_parse X (VolumeAttributes req) = inr o /\
    count is_user_creation (emitted w w') = if ProvisionVolume o then 1 else 0.
Proof.
  intros H Hnot. run_node H; read_log; probe_facts.
  all: try contradiction.
  all: split; [set_solver|].
  all: repeat split; try done.
  all: eexists; split; [reflexivity|].
  all: match goal with Hb : ProvisionVolume _ = _ |- _ => rewrite Hb end.
  all: reflexivity.
Qed.

(** C6. Stage idempotence.  A [NodeStageVolume] call whose probe reports the
    staging path as a mount point answers with success at once: the cache
    and the mount table are as before and no event of the call mounts,
    creates a user, stores credentials or inserts a cache entry.  Hence two
    calls in a row for the same request, starting with the path not
    mounted and the first one successful, make one mount and one passage
    through the credentials (one cache entry, one user when the volume is
    provisioned dynamically) between them; the second call adds none, and
    it succeeds unless one of its three preliminary steps fails. *)
Theorem NodeStageVolume_idempotent :
  (forall X ns req w r w',
     NodeStageVolume X ns req w = (r, w') ->
     EIsMountPoint (StageStagingTargetPath req) (inr true) ∈ emitted w w' ->
     r = Ok mkNodeStageVolumeResponse /\
     nodeCache w' = nodeCache w /\
     mounts w' = mounts w /\
     forallb quiet (emitted w w') = true /\
     exists conf,
       emitted w w' = [ECreateMountPoint (StageStagingTargetPath req) None;
                       EWriteToFile conf None;
                       EIsMountPoint (StageStagingTargetPath req) (inr true)]) /\
  (forall X ns req w0 resp1 w1 r2 w2,
     StageStagingTargetPath req ∉ mounts w0 ->
     NodeStageVolume X ns req w0 = (Ok resp1, w1) ->
     NodeStageVolume X ns req w1 = (r2, w2) ->
     count is_mount (emitted w0 w2) = 1 /\
     count is_cache_insert (emitted w0 w2) = 1 /\
     (exists o,
        newVolumeOptions_parse X (VolumeAttributes req) = inr o /\
        count is_user_creation (emitted w0 w2)
        = if ProvisionVolume o then 1 else 0) /\
     forallb quiet (emitted w1 w2) = true /\
     nodeCache w2 = nodeCache w1 /\
     mounts w2 = mounts w1 /\
     (r2 = Ok mkNodeStageVolumeResponse \/
      exists e, r2 = Err (mkStatus Internal e)) /\
     (forallb (fun e => negb (failed e)) (emitted w1 w2) = true ->
      r2 = Ok mkNodeStageVolumeResponse)).
Proof.
  split; [exact NodeStageVolume_probe_true|].
  intros X ns req w0 resp1 w1 r2 w2 Hnot H1 H2.
  destruct (NodeStageVolume_first _ _ _ _ _ _ H1 Hnot)
    as (Hin & Hv & Hm & Hc & o & Hp & Hu).
  destruct (NodeStageVolume_again _ _ _ _ _ _ o H2 Hin Hv Hp)
    as (Hq & Hcache & Hmounts & Hr & Hok).
  destruct (NodeStageVolume_log _ _ _ _ _ _ H1) as (e1 & He1).
  destruct (NodeStageVolume_log _ _ _ _ _ _ H2) as (e2 & He2).
  rewrite (emitted_trans w0 w1 w2 e1 e2 He1 He2), !count_app.
  rewrite !(count_quiet _ _ Hq), !Nat.add_0_r
    by (intros e; unfold quiet; by destruct e).
  split; [exact Hm|]. split; [exact Hc|]. split; [by exists o|].
  done.
Qed.

(** *** Unstaging *)

(** C7. When the deletion of the dedicated user fails in
    [NodeUnstageVolume], the entry that was popped is put back as it was
    and the call fails with [Internal]: the cache and the objects it points
    to are the same as before the call, so the entry of the volume can be
    read again. *)
Theorem NodeUnstageVolume_reinserts X ns req w r w' cr volId e :
  NodeUnstageVolume X ns req w = (r, w') ->
  EDeleteCephUser cr volId (Some e) ∈ emitted w w' ->
  r = Err (mkStatus Internal e) /\
  nodeCache w' = nodeCache w /\
  heap w' = heap w /\
  exists ent o,
    nodeCache w' !! UnstageVolumeId req = Some ent /\
    heap w' !! volOptions ent = Some o /\
    ProvisionVolume o = true /\
    emitted w w'
    = [EUnmountVolume (UnstageStagingTargetPath req) None;
       ERemove (UnstageStagingTargetPath req);
       ECachePop (UnstageVolumeId req) (Some ent);
       EDeleteCephUser (mkCredentials (cephAdminID ent) EmptyString)
         (UnstageVolumeId req) (Some e);
       ECacheInsert (UnstageVolumeId req) ent].
Proof.
  intros H Hev. run_node H; read_log; elem_cases Hev.
  all: rewrite insert_delete_eq, insert_id by done.
  all: split; [reflexivity|]. 
  all: split; [reflexivity|].
  all: split; [reflexivity|].
  all: eexists _, _. 
  all: repeat split; eauto.
Qed.

(** *** The cache and the mount table *)


(** *** The handlers at work *)

Lemma NodeStageVolume_idempotent_witness :
  fst CephfsExample.staged_again = Ok mkNodeStageVolumeResponse /\
  nodeCache (snd CephfsExample.staged_again) = nodeCache CephfsExample.staged /\
  count is_mount (emitted CephfsExample.empty (snd CephfsExample.staged_again)) = 1 /\
  count is_cache_insert (emitted CephfsExample.empty (snd CephfsExample.staged_again)) = 1.
Proof.
  destruct NodeStageVolume_idempotent as [Hprobe Htwice].
  destruct (Hprobe CephfsExample.healthy CephfsExample.ns CephfsExample.stage1
              CephfsExample.staged (fst CephfsExample.staged_again)
              (snd CephfsExample.staged_again))
    as (Hr & Hcache & _).
  - apply surjective_pairing.
  - vm_compute. in_list.
  - destruct (Htwice CephfsExample.healthy CephfsExample.ns
                CephfsExample.stage1 CephfsExample.empty
                mkNodeStageVolumeResponse CephfsExample.staged
                (fst CephfsExample.staged_again) (snd CephfsExample.staged_again))
      as (Hm & Hc & _).
    + apply (bool_decide_eq_false_1 _). vm_compute. reflexivity.
    + exact stage1_fresh.
    + apply surjective_pairing.
    + repeat split; assumption.
Defined.

Lemma NodeUnstageVolume_reinserts_witness :
  fst CephfsExample.unstage_user_kept = Err (mkStatus Internal "auth del failed") /\
  nodeCache (snd CephfsExample.unstage_user_kept) = nodeCache CephfsExample.staged.
Proof.
  destruct (NodeUnstageVolume_reinserts CephfsExample.no_user_deletion
              CephfsExample.ns CephfsExample.unstage1 CephfsExample.staged
              (fst CephfsExample.unstage_user_kept) (snd CephfsExample.unstage_user_kept)
              (mkCredentials "admin" EmptyString) "vol-1" "auth del failed")
    as (Hr & Hcache & _).
  - apply surjective_pairing.
  - vm_compute. in_list.
  - split; assumption.
Defined.



End CephfsProps.

(** ** More on the controller *)

Module RbdExtra.
Import Rbd RbdRuns RbdProps.

(** *** Requests that are turned away *)

(** X1. A request that the driver does not accept, that has an empty name
    or that has no capabilities is answered with [InvalidArgument]; nothing
    is looked up, drawn, called or written. *)
Theorem CreateVolume_refused X cs req w :
  ~ accepted cs req ->
  exists msg, CreateVolume X cs req w = (Err (mkStatus InvalidArgument msg), w).
Proof.
  intros Hno. unfold CreateVolume.
  destruct (ValidateControllerServiceRequest _ _) eqn:Hv; [by eexists|].
  destruct (Name req) as [|a n] eqn:Hn; [by eexists|].
  destruct (VolumeCapabilities req) eqn:Hc; [|by eexists].
  exfalso. apply Hno. unfold accepted. rewrite Hn, Hc. by eauto.
Qed.

(** X2. When the parameters of a new volume cannot be parsed the answer is
    [InvalidArgument] with the parser's message, and the world is as it
    was: no token is drawn and the backend is not asked. *)
Theorem CreateVolume_bad_options X cs req w err :
  accepted cs req ->
  lookupByName (rbdVolumes w) (GetName req) = None ->
  getRBDVolumeOptions X (GetParameters req) = inl err ->
  CreateVolume X cs req w = (Err (mkStatus InvalidArgument err), w).
Proof.
  intros (Hv & Hn & [caps Hc]) Hl Hp.
  unfold CreateVolume. rewrite Hv, Hc.
  destruct (Name req) as [|a n] eqn:Hname; [done|].
  cbv beta iota delta [bind catch ret fail getRBDVolumeByName String.length Nat.eqb].
  by rewrite Hl, Hp.
Qed.

(** *** The backend on the way to a new volume *)

(** X3. When the backend cannot create the image the answer is [Internal]
    with the backend's message; the call has asked for the status and for
    the image and nothing else: no record is persisted, the index is not
    written, yet one token is used up. *)
Theorem CreateVolume_image_failure X cs req w r w' v sz e :
  CreateVolume X cs req w = (r, w') ->
  ECreateRBDImage v sz (Some e) ∈ emitted w w' ->
  r = Err (mkStatus Internal e) /\
  untouched w w' /\
  emitted w w' = [ERbdStatus v false; ECreateRBDImage v sz (Some e)] /\
  uuids w' = S (uuids w).
Proof.
  intros Hrun Hev.
  apply CreateVolume_inv in Hrun
    as [(-> & _) | [(-> & _) | (Hacc & Hl & parsed & _ & Hu & Hnew)]].
  - rewrite emitted_refl in Hev. by apply elem_of_nil in Hev.
  - rewrite emitted_refl in Hev. by apply elem_of_nil in Hev.
  - destruct Hnew as [(e' & Hr & Hevs & Hi & Hs & Him) | (found & o & _ & Hevs & _)];
      rewrite Hevs in Hev; elem_cases Hev.
    unfold untouched. by rewrite Hevs.
Qed.

(** X4. When the backend reports that the image is there already, no image
    is created: the call persists the record, writes the index and answers
    with success. *)
Theorem CreateVolume_image_found X cs req w r w' v :
  CreateVolume X cs req w = (r, w') ->
  ERbdStatus v true ∈ emitted w w' ->
  r = Ok (mkCreateVolumeResponse
            (mkVolume (VolID v) (VolSize v) (GetParameters req))) /\
  images w' = images w /\
  rbdVolumes w' = <[VolID v := v]> (rbdVolumes w) /\
  exists o,
    emitted w w' = [ERbdStatus v true; EPersistVolInfo (VolID v) v o;
                    EIndexStore (VolID v) v].
Proof.
  intros Hrun Hev.
  apply CreateVolume_inv in Hrun
    as [(-> & _) | [(-> & _) | (Hacc & Hl & parsed & _ & Hu & Hnew)]].
  - rewrite emitted_refl in Hev. by apply elem_of_nil in Hev.
  - rewrite emitted_refl in Hev. by apply elem_of_nil in Hev.
  - destruct Hnew as [(e' & Hr & Hevs & _) | (found & o & Hr & Hevs & Hi & _ & Him)];
      rewrite Hevs in Hev; elem_cases Hev.
    rewrite Hevs, Hi, Him. simpl. repeat split. by exists o.
Qed.

(** X5. [CreateVolume] writes in one place only: the index and the store
    can change under the ID made from the next token and nowhere else, the
    backend under the name of the request and nowhere else; no entry, no
    record and no image disappears. *)
Theorem CreateVolume_frame X cs req w :
  let w' := snd (CreateVolume X cs req w) in
  let volumeID := "csi-rbd-" +:+ uuidString X (uuids w) in
  (forall k, k <> volumeID ->
             rbdVolumes w' !! k = rbdVolumes w !! k /\
             volInfo w' !! k = volInfo w !! k) /\
  (forall pool name, name <> GetName req ->
                     images w' !! (pool, name) = images w !! (pool, name)) /\
  dom (rbdVolumes w) ⊆ dom (rbdVolumes w') /\
  dom (volInfo w) ⊆ dom (volInfo w') /\
  dom (images w) ⊆ dom (images w').
Proof.
  intros w' volumeID.
  destruct (CreateVolume_inv X cs req w _ _ (surjective_pairing _))
    as [(Hw & _) | [(Hw & _) | (Hacc & Hl & parsed & _ & Hu & Hnew)]].
  - fold w' in Hw. by rewrite Hw.
  - fold w' in Hw. by rewrite Hw.
  - fold w' in Hnew. fold volumeID in Hnew.
    destruct Hnew as [(e' & _ & _ & Hi & Hs & Him) | (found & o & _ & _ & Hi & Hs & Him)].
    + by rewrite Hi, Hs, Him.
    + rewrite Hi, Hs, Him. split; [|split; [|split; [|split]]].
      * intros k Hk. rewrite lookup_insert_ne by done.
        destruct o; [done|]. by rewrite lookup_insert_ne.
      * intros pool name Hname. destruct found; [done|].
        rewrite lookup_insert_ne; [done|]. simpl. congruence.
      * rewrite dom_insert_L. set_solver.
      * destruct o; [done|]. rewrite dom_insert_L. set_solver.
      * destruct found; [done|]. rewrite dom_insert_L. set_solver.
Qed.

Lemma answer_in_index_aux X cs req w resp w' :
  keyed (rbdVolumes w) ->
  CreateVolume X cs req w = (Ok resp, w') ->
  exists v,
    rbdVolumes w' !! Id (Volume_ resp) = Some v /\
    VolName v = GetName req.
Proof.
  intros Hk Hrun.
  apply CreateVolume_inv in Hrun
    as [(_ & msg & ?) | [(-> & Hacc & exVol & Hl & Hr) | (Hacc & Hl & Hnew)]];
    [discriminate | |].
  - destruct (VolSize exVol >=? _)%Z; [|discriminate]. simplify_eq/=.
    apply lookupByName_Some in Hl as (Hn & k & Hlk).
    exists exVol. rewrite (Hk _ _ Hlk). done.
  - destruct Hnew as (parsed & _ & _ & [(e & ? & _) | (found & o & Hr & _ & Hidx & _)]);
      [discriminate|].
    simplify_eq/=. eexists. rewrite Hidx, lookup_insert_eq. done.
Qed.

(** X7. With an index whose entries sit under their own ID, the ID of a
    successful answer is the key of an entry of the index, and this entry
    has the name of the request and the capacity of the answer. *)
Theorem CreateVolume_answer_in_index X cs req w resp w' :
  keyed (rbdVolumes w) ->
  CreateVolume X cs req w = (Ok resp, w') ->
  exists v,
    rbdVolumes w' !! Id (Volume_ resp) = Some v /\
    VolID v = Id (Volume_ resp) /\
    VolName v = GetName req /\
    VolSize v = CapacityBytes (Volume_ resp).
Proof.
  intros Hk Hrun.
  apply CreateVolume_inv in Hrun
    as [(_ & msg & ?) | [(-> & Hacc & exVol & Hl & Hr) | (Hacc & Hl & Hnew)]];
    [discriminate | |].
  - destruct (VolSize exVol >=? _)%Z; [|discriminate]. simplify_eq/=.
    apply lookupByName_Some in Hl as (Hn & k & Hlk).
    exists exVol. rewrite (Hk _ _ Hlk). done.
  - destruct Hnew as (parsed & _ & _ & [(e & ? & _) | (found & o & Hr & _ & Hidx & _)]);
      [discriminate|].
    simplify_eq/=. eexists. rewrite Hidx, lookup_insert_eq. done.
Qed.

(** *** Deleting *)

(** X8. Deleting a volume that has no persisted record fails with
    [Internal] right after the attempt to load it: the backend is not asked
    to delete anything and the index keeps its entries. *)
Theorem DeleteVolume_unknown X cs req w :
  ValidateControllerServiceRequest (Driver cs) RPC_CREATE_DELETE_VOLUME = None ->
  volInfo w !! GetVolumeId req = None ->
  exists e w',
    DeleteVolume X cs req w = (Err (mkStatus Internal e), w') /\
    untouched w w' /\
    emitted w w' = [ELoadVolInfo (GetVolumeId req) (Some e)].
Proof.
  intros Hv Hnone.
  destruct (DeleteVolume X cs req w) as [r w'] eqn:H.
  revert H.
  unfold DeleteVolume, loadVolInfo, deleteRBDImage, deleteVolInfo, index_delete,
    untouched, GetVolumeId in *.
  intros H. rewrite Hv in H. run_in H.
  all: try congruence.
  all: eexists _, _.
  all: split; [reflexivity|].
  all: split; [done|].
  all: emitted_now.
Qed.

(** X9. [DeleteVolume] removes in one place only: in the index and in the
    store the entries under other IDs stay as they are, and nothing is
    added to the index, to the store or to the backend. *)
Theorem DeleteVolume_frame X cs req w :
  let w' := snd (DeleteVolume X cs req w) in
  (forall k, k <> GetVolumeId req ->
             rbdVolumes w' !! k = rbdVolumes w !! k /\
             volInfo w' !! k = volInfo w !! k) /\
  dom (rbdVolumes w') ⊆ dom (rbdVolumes w) /\
  dom (volInfo w') ⊆ dom (volInfo w) /\
  dom (images w') ⊆ dom (images w) /\
  uuids w' = uuids w.
Proof.
  intros w'. subst w'.
  destruct (DeleteVolume X cs req w) as [r w'] eqn:H. simpl.
  revert H.
  unfold DeleteVolume, loadVolInfo, deleteRBDImage, deleteVolInfo, index_delete,
    GetVolumeId in *.
  intros H. run_in H.
  all: repeat split; try done.
  all: try (rewrite lookup_delete_ne by congruence; reflexivity).
  all: rewrite dom_delete_L; by apply subseteq_difference_l.
Qed.

(** What [DeleteVolume] does to the index and to the store: nothing, or the
    removal of the volume from both. *)
Lemma DeleteVolume_effect X cs req w r w' :
  DeleteVolume X cs req w = (r, w') ->
  uuids w' = uuids w /\
  ((rbdVolumes w' = rbdVolumes w /\ volInfo w' = volInfo w /\
    r <> Ok mkDeleteVolumeResponse)
   \/ (rbdVolumes w' = delete (GetVolumeId req) (rbdVolumes w) /\
       volInfo w' = delete (GetVolumeId req) (volInfo w) /\
       r = Ok mkDeleteVolumeResponse /\
       exists v, volInfo w !! GetVolumeId req = Some v /\
                 images w' = delete (Pool v, VolName v) (images w))).
Proof.
  unfold DeleteVolume, loadVolInfo, deleteRBDImage, deleteVolInfo, index_delete,
    GetVolumeId.
  intros H. run_in H.
  all: split; [reflexivity|].
  all: first [ left; repeat split; discriminate
             | right; repeat split; eexists; split; reflexivity ].
Qed.

(** *** What the index keeps *)

Lemma CreateVolume_keyed X cs req w r w' :
  keyed (rbdVolumes w) ->
  CreateVolume X cs req w = (r, w') ->
  keyed (rbdVolumes w').
Proof.
  intros Hk Hrun.
  apply CreateVolume_inv in Hrun
    as [(-> & _) | [(-> & _) | (_ & Hl & parsed & _ & _ & Hnew)]]; [done..|].
  destruct Hnew as [(_ & _ & _ & -> & _) | (_ & _ & _ & _ & -> & _)]; [done|].
  intros k v Hkv. apply lookup_insert_Some in Hkv as [[<- <-] | [_ Hkv]]; [done|].
  by apply Hk.
Qed.

Lemma CreateVolume_ids_drawn X cs req w r w' :
  ids_drawn X w ->
  CreateVolume X cs req w = (r, w') ->
  ids_drawn X w'.
Proof.
  intros Hd Hrun.
  apply CreateVolume_inv in Hrun
    as [(-> & _) | [(-> & _) | (_ & Hl & parsed & _ & Hu & Hnew)]]; [done..|].
  intros k Hk. unfold ids_drawn in Hd. rewrite Hu.
  destruct Hnew as [(_ & _ & _ & Hi & _) | (_ & _ & _ & _ & Hi & _)];
    rewrite Hi in Hk.
  - destruct (Hd k Hk) as (n & Hn & ->). exists n. split; [lia | done].
  - destruct (decide ("csi-rbd-" +:+ uuidString X (uuids w) = k)) as [<-|Hne].
    + exists (uuids w). split; [lia | done].
    + rewrite lookup_insert_ne in Hk by done.
      destruct (Hd k Hk) as (n & Hn & ->). exists n. split; [lia | done].
Qed.

Lemma callController_index_ok X cs c w :
  index_ok X w -> index_ok X (callController X cs c w).
Proof.
  intros (Hu & Hk & Hd). destruct c as [req|req]; simpl.
  - pose proof (surjective_pairing (CreateVolume X cs req w)) as Hrun.
    split; [|split].
    + by apply (CreateVolume_names_unique X cs req w _ _ Hu Hrun).
    + by apply (CreateVolume_keyed X cs req w _ _ Hk Hrun).
    + by apply (CreateVolume_ids_drawn X cs req w _ _ Hd Hrun).
  - pose proof (surjective_pairing (DeleteVolume X cs req w)) as Hrun.
    split; [|split].
    + by apply (DeleteVolume_names_unique X cs req w _ _ Hu Hrun).
    + apply DeleteVolume_effect in Hrun as (_ & [(-> & _) | (-> & _)]); [done|].
      intros k v [_ Hkv]%lookup_delete_Some. by apply Hk.
    + apply DeleteVolume_effect in Hrun as (Huu & Hcases).
      intros k Hsome. unfold ids_drawn in Hd. rewrite Huu.
      apply Hd. destruct Hcases as [(Hi & _) | (Hi & _)]; rewrite Hi in Hsome;
        [done|].
      destruct Hsome as [v [_ Hv]%lookup_delete_Some]. by exists v.
Qed.

(** X6. Whatever calls to [CreateVolume] and [DeleteVolume] are made, one
    after the other, and however the collaborators answer, the index keeps
    its shape: no two entries have the same name, every entry sits under
    its own [VolID], and every key is the prefix followed by a token drawn
    before. *)
Theorem controller_keeps_index X cs calls w :
  index_ok X w -> index_ok X (runController X cs calls w).
Proof.
  revert w. induction calls as [|c calls IH]; intros w Hok; [exact Hok|].
  simpl. apply IH. by apply callController_index_ok.
Qed.

Lemma callController_records_indexed X cs c w :
  records_indexed w -> records_indexed (callController X cs c w).
Proof.
  unfold records_indexed. intros Hsub. destruct c as [req|req]; simpl.
  - destruct (CreateVolume_inv X cs req w _ _ (surjective_pairing _))
      as [(-> & _) | [(-> & _) | (_ & _ & parsed & _ & _ & Hnew)]]; [done..|].
    destruct Hnew as [(_ & _ & _ & -> & -> & _) | (_ & o & _ & _ & -> & -> & _)];
      [done|].
    rewrite dom_insert_L. destruct o; [set_solver|].
    rewrite dom_insert_L. set_solver.
  - destruct (DeleteVolume_effect X cs req w _ _ (surjective_pairing _))
      as (_ & [(-> & -> & _) | (-> & -> & _)]); [done|].
    rewrite !dom_delete_L. set_solver.
Qed.

(** X13. Whatever calls are made, a persisted record never stands without
    an entry in the index: [CreateVolume] writes the index even when the
    store refuses the record, and [DeleteVolume] takes the entry out only
    after the record is gone. *)
Theorem controller_keeps_records_indexed X cs calls w :
  records_indexed w -> records_indexed (runController X cs calls w).
Proof.
  revert w. induction calls as [|c calls IH]; intros w Hok; [exact Hok|].
  simpl. apply IH. by apply callController_records_indexed.
Qed.

(** X15. With tokens that are all different, the ID of a new volume is not
    a key of the index: making a volume replaces no entry, and every entry
    that was there is there afterwards. *)
Theorem CreateVolume_fresh_id X cs req w resp w' :
  ids_drawn X w ->
  Inj (=) (=) (uuidString X) ->
  lookupByName (rbdVolumes w) (GetName req) = None ->
  CreateVolume X cs req w = (Ok resp, w') ->
  rbdVolumes w !! Id (Volume_ resp) = None /\
  (forall k v, rbdVolumes w !! k = Some v -> rbdVolumes w' !! k = Some v).
Proof.
  intros Hd Hinj Hnone Hrun.
  apply CreateVolume_inv in Hrun
    as [(_ & msg & ?) | [(-> & _ & exVol & Hl & _) | (_ & _ & Hnew)]];
    [discriminate | congruence |].
  destruct Hnew as (parsed & _ & _ & [(e & ? & _) | (found & o & Hr & _ & Hidx & _)]);
    [discriminate|].
  simplify_eq/=.
  assert (rbdVolumes w !! ("csi-rbd-" +:+ uuidString X (uuids w)) = None) as Hfree.
  { destruct (rbdVolumes w !! _) as [v|] eqn:Hv; [|done].
    destruct (Hd _ (mk_is_Some _ _ Hv)) as (n & Hn & Heq).
    apply (inj _) in Heq. apply Hinj in Heq. lia. }
  split; [exact Hfree|].
  intros k v Hk. rewrite Hidx, lookup_insert_ne; [done|]. congruence.
Qed.

(** *** Calls one after the other *)

(** X10. Making a volume and deleting it again leaves the index, the store
    and the backend as they were, provided that the ID, and the name on the
    backend, were not in use before and that the record was persisted. *)
Theorem create_delete_round_trip X cs req secrets w0 resp w1 d w2 :
  CreateVolume X cs req w0 = (Ok resp, w1) ->
  rbdVolumes w0 !! Id (Volume_ resp) = None ->
  volInfo w0 !! Id (Volume_ resp) = None ->
  (forall pool, images w0 !! (pool, GetName req) = None) ->
  is_Some (volInfo w1 !! Id (Volume_ resp)) ->
  DeleteVolume X cs (mkDeleteVolumeRequest (Id (Volume_ resp)) secrets) w1
  = (Ok d, w2) ->
  rbdVolumes w2 = rbdVolumes w0 /\
  volInfo w2 = volInfo w0 /\
  images w2 = images w0.
Proof.
  intros Hc Hi0 Hs0 Him0 Hrec Hd.
  apply CreateVolume_inv in Hc
    as [(_ & msg & ?) | [(-> & _) | (_ & _ & Hnew)]]; [discriminate | |].
  - rewrite Hs0 in Hrec. by destruct Hrec.
  - destruct Hnew as (parsed & _ & _ & [(e & ? & _) | (found & o & Hr & _ & Hi & Hs & Him)]);
      [discriminate|].
    simplify_eq/=.
    destruct o as [e|]; [rewrite Hs, Hs0 in Hrec; by destruct Hrec|].
    destruct d.
    apply DeleteVolume_effect in Hd
      as (_ & [(_ & _ & ?) | (Hi2 & Hs2 & _ & v & Hv & Him2)]); [done|].
    simpl in *. rewrite Hs, lookup_insert_eq in Hv. simplify_eq/=.
    rewrite Hi2, Hs2, Him2, Hi, Hs, Him.
    rewrite !delete_insert_id by done. split; [done|]. split; [done|].
    destruct found.
    + by apply delete_id.
    + by apply delete_insert_id.
Qed.

(** X11. After a volume was made and deleted, its name is free again: with
    an index in good shape and tokens that are all different, no record and
    no entry are left under the old ID, a further call with the same name
    is not answered from the index and never with [AlreadyExists], and the
    volume it makes has an ID different from the old one. *)
Theorem delete_then_create X cs req secrets w0 resp1 w1 d w2 r3 w3 :
  index_ok X w0 ->
  Inj (=) (=) (uuidString X) ->
  CreateVolume X cs req w0 = (Ok resp1, w1) ->
  DeleteVolume X cs (mkDeleteVolumeRequest (Id (Volume_ resp1)) secrets) w1
  = (Ok d, w2) ->
  CreateVolume X cs req w2 = (r3, w3) ->
  volInfo w2 !! Id (Volume_ resp1) = None /\
  rbdVolumes w2 !! Id (Volume_ resp1) = None /\
  lookupByName (rbdVolumes w2) (GetName req) = None /\
  (forall msg, r3 <> Err (mkStatus AlreadyExists msg)) /\
  (forall resp3, r3 = Ok resp3 ->
                 Id (Volume_ resp3) <> Id (Volume_ resp1) /\
                 CapacityBytes (Volume_ resp3) = sizeOf req).
Proof.
  intros Hok Hinj Hc1 Hd Hc3.
  assert (index_ok X w1) as (Hu1 & Hk1 & Hd1).
  { apply (callController_index_ok X cs (CallCreateVolume req)) in Hok.
    simpl in Hok. by rewrite Hc1 in Hok. }
  destruct (answer_in_index_aux X cs req w0 resp1 w1) as (v1 & Hv1 & Hn1);
    [by destruct Hok as (_ & ? & _) | done |].
  destruct d.
  apply DeleteVolume_effect in Hd
    as (Huu & [(_ & _ & ?) | (Hi2 & Hs2 & _)]); [done|]. simpl in *.
  assert (lookupByName (rbdVolumes w2) (GetName req) = None) as Hfree.
  { destruct (lookupByName (rbdVolumes w2) (GetName req)) as [v|] eqn:Hl; [|done].
    apply lookupByName_Some in Hl as (Hn & k & Hkv). rewrite Hi2 in Hkv.
    apply lookup_delete_Some in Hkv as [Hne Hkv].
    exfalso. apply Hne. apply (Hu1 _ _ _ _ Hv1 Hkv). congruence. }
  split; [rewrite Hs2; apply lookup_delete_eq|].
  split; [rewrite Hi2; apply lookup_delete_eq|].
  split; [exact Hfree|].
  apply CreateVolume_inv in Hc3
    as [(_ & msg & ->) | [(_ & _ & exVol & Hl & _) | (_ & _ & Hnew)]].
  - split; [discriminate | discriminate].
  - congruence.
  - destruct Hnew as (parsed & _ & _ & [(e & -> & _) | (found & o & -> & _)]);
      [split; discriminate|].
    split; [discriminate|]. intros resp3 [= <-]. simpl. split; [|done].
    destruct (Hd1 (Id (Volume_ resp1)) (mk_is_Some _ _ Hv1)) as (n & Hn & ->).
    intros Heq. apply (inj _) in Heq. apply Hinj in Heq. lia.
Qed.

(** X12. A volume whose record could not be persisted cannot be deleted:
    the call made the volume and answered with success, but [DeleteVolume]
    for its ID fails with [Internal] at the load, and the image and the
    entry of the index stay. *)
Theorem unpersisted_volume_stays X cs req w0 r1 w1 id v e secrets r2 w2 :
  CreateVolume X cs req w0 = (r1, w1) ->
  EPersistVolInfo id v (Some e) ∈ emitted w0 w1 ->
  volInfo w0 !! id = None ->
  DeleteVolume X cs (mkDeleteVolumeRequest id secrets) w1 = (r2, w2) ->
  (exists e', r2 = Err (mkStatus Internal e')) /\
  untouched w1 w2 /\
  rbdVolumes w2 !! id = Some v /\
  (forall v' o, EDeleteRBDImage v' o ∉ emitted w1 w2).
Proof.
  intros Hc Hev Hs0 Hd.
  apply CreateVolume_inv in Hc
    as [(-> & _) | [(-> & _) | ((Hv & _) & _ & parsed & _ & _ & Hnew)]].
  - rewrite emitted_refl in Hev. by apply elem_of_nil in Hev.
  - rewrite emitted_refl in Hev. by apply elem_of_nil in Hev.
  - destruct Hnew as [(e' & _ & Hevs & _) | (found & o & Hr & Hevs & Hi & Hs & _)];
      rewrite Hevs in Hev; elem_cases Hev.
    all: simpl in Hs; rewrite <- Hs in Hs0.
    all: revert Hd;
      unfold DeleteVolume, loadVolInfo, deleteRBDImage, deleteVolInfo,
        index_delete, untouched, GetVolumeId; simpl;
      rewrite Hv; intros Hd; run_in Hd; try congruence.
    all: rewrite Hi, lookup_insert_eq.
    all: split; [by eexists|]; split; [done|]; split; [done|].
    all: intros v' o' Hin; unfold emitted in Hin; simpl in Hin;
      rewrite drop_app_length in Hin; elem_cases Hin.
Qed.

(** *** The properties at work *)

Lemma uuid_length n :
  String.length (String.concat EmptyString (repeat "u" n)) = n.
Proof.
  induction n as [|n IH]; [reflexivity|].
  destruct n as [|n]; [reflexivity|].
  change (S (String.length (String.concat EmptyString (repeat "u" (S n))))
          = S (S n)).
  by rewrite IH.
Qed.

Lemma healthy_uuid_inj : Inj (=) (=) (uuidString RbdExample.healthy).
Proof.
  intros n m H.
  change (String.concat EmptyString (repeat "u" (S n))
          = String.concat EmptyString (repeat "u" (S m))) in H.
  apply (f_equal String.length) in H.
  rewrite !uuid_length in H. lia.
Qed.

Lemma empty_index : rbdVolumes RbdExample.empty = ∅.
Proof. reflexivity. Qed.

Lemma index_ok_empty X : index_ok X RbdExample.empty.
Proof.
  split; [|split].
  - intros k1 k2 v1 v2 H. by rewrite empty_index, lookup_empty in H.
  - intros k v H. by rewrite empty_index, lookup_empty in H.
  - intros k [v H]. by rewrite empty_index, lookup_empty in H.
Qed.

Lemma CreateVolume_refused_witness :
  exists msg,
    CreateVolume RbdExample.healthy RbdExample.cs RbdCases.unnamed
      RbdExample.empty
    = (Err (mkStatus InvalidArgument msg), RbdExample.empty).
Proof.
  apply CreateVolume_refused. intros (_ & Hn & _). by apply Hn.
Defined.

Lemma CreateVolume_bad_options_witness :
  CreateVolume RbdCases.bad_options RbdExample.cs RbdExample.pvc1
    RbdExample.empty
  = (Err (mkStatus InvalidArgument "missing required parameter pool"),
     RbdExample.empty).
Proof.
  apply CreateVolume_bad_options.
  - split; [reflexivity|]. split; [discriminate|]. by eexists.
  - vm_compute. reflexivity.
  - reflexivity.
Defined.

Lemma CreateVolume_image_failure_witness :
  fst (CreateVolume RbdCases.no_space RbdExample.cs RbdExample.pvc1
         RbdExample.empty)
  = Err (mkStatus Internal "no space left") /\
  untouched RbdExample.empty
    (snd (CreateVolume RbdCases.no_space RbdExample.cs RbdExample.pvc1
            RbdExample.empty)).
Proof.
  destruct (CreateVolume_image_failure RbdCases.no_space RbdExample.cs
              RbdExample.pvc1 RbdExample.empty _ _ RbdExample.vol1 2
              "no space left"
              (surjective_pairing
                 (CreateVolume RbdCases.no_space RbdExample.cs RbdExample.pvc1
                    RbdExample.empty)))
    as (Hr & Hu & _).
  - vm_compute. in_list.
  - split; assumption.
Defined.

Lemma CreateVolume_image_found_witness :
  fst (CreateVolume RbdCases.image_there RbdExample.cs RbdExample.pvc1
         RbdExample.empty)
  = Ok (mkCreateVolumeResponse (mkVolume "csi-rbd-u" 2147483648 ∅)) /\
  images (snd (CreateVolume RbdCases.image_there RbdExample.cs RbdExample.pvc1
                 RbdExample.empty)) = ∅.
Proof.
  destruct (CreateVolume_image_found RbdCases.image_there RbdExample.cs
              RbdExample.pvc1 RbdExample.empty _ _ RbdExample.vol1
              (surjective_pairing
                 (CreateVolume RbdCases.image_there RbdExample.cs
                    RbdExample.pvc1 RbdExample.empty)))
    as (Hr & Hi & _).
  - vm_compute. in_list.
  - split; assumption.
Defined.

Lemma CreateVolume_answer_in_index_witness :
  exists v,
    rbdVolumes RbdExample.after_pvc1 !! "csi-rbd-u" = Some v /\
    VolID v = "csi-rbd-u" /\
    VolName v = "pvc-1" /\
    VolSize v = 2147483648%Z.
Proof.
  apply (CreateVolume_answer_in_index RbdExample.healthy RbdExample.cs
           RbdExample.pvc1 RbdExample.empty
           (mkCreateVolumeResponse (mkVolume "csi-rbd-u" 2147483648 ∅))
           RbdExample.after_pvc1).
  - intros k v H. by rewrite empty_index, lookup_empty in H.
  - exact pvc1_fresh.
Defined.

Lemma DeleteVolume_unknown_witness :
  exists e w',
    DeleteVolume RbdExample.healthy RbdExample.cs RbdExample.delete1
      RbdExample.empty = (Err (mkStatus Internal e), w') /\
    untouched RbdExample.empty w' /\
    emitted RbdExample.empty w' = [ELoadVolInfo "csi-rbd-u" (Some e)].
Proof.
  apply (DeleteVolume_unknown RbdExample.healthy RbdExample.cs
           RbdExample.delete1 RbdExample.empty); reflexivity.
Defined.

Lemma controller_keeps_index_witness :
  index_ok RbdExample.healthy
    (runController RbdExample.healthy RbdExample.cs RbdCases.make_delete_make
       RbdExample.empty).
Proof.
  apply controller_keeps_index.
  split; [|split].
  - intros k1 k2 v1 v2 H. by rewrite empty_index, lookup_empty in H.
  - intros k v H. by rewrite empty_index, lookup_empty in H.
  - intros k [v H]. by rewrite empty_index, lookup_empty in H.
Defined.

Lemma controller_keeps_records_indexed_witness :
  records_indexed
    (runController RbdExample.readonly_store RbdExample.cs
       RbdCases.make_delete_make RbdExample.empty).
Proof.
  apply controller_keeps_records_indexed. unfold records_indexed. simpl.
  by rewrite !dom_empty_L.
Defined.

Lemma CreateVolume_fresh_id_witness :
  rbdVolumes RbdExample.empty !! "csi-rbd-u" = None /\
  (forall k v, rbdVolumes RbdExample.empty !! k = Some v ->
               rbdVolumes RbdExample.after_pvc1 !! k = Some v).
Proof.
  apply (CreateVolume_fresh_id RbdExample.healthy RbdExample.cs RbdExample.pvc1
           RbdExample.empty
           (mkCreateVolumeResponse (mkVolume "csi-rbd-u" 2147483648 ∅))
           RbdExample.after_pvc1).
  - intros k [v H]. by rewrite empty_index, lookup_empty in H.
  - exact healthy_uuid_inj.
  - vm_compute. reflexivity.
  - exact pvc1_fresh.
Defined.

Lemma create_delete_round_trip_witness :
  rbdVolumes RbdCases.after_delete1 = rbdVolumes RbdExample.empty /\
  volInfo RbdCases.after_delete1 = volInfo RbdExample.empty /\
  images RbdCases.after_delete1 = images RbdExample.empty.
Proof.
  apply (create_delete_round_trip RbdExample.healthy RbdExample.cs
           RbdExample.pvc1 ∅ RbdExample.empty
           (mkCreateVolumeResponse (mkVolume "csi-rbd-u" 2147483648 ∅))
           RbdExample.after_pvc1 mkDeleteVolumeResponse
           RbdCases.after_delete1).
  - exact pvc1_fresh.
  - reflexivity.
  - reflexivity.
  - intros pool. apply lookup_empty.
  - vm_compute. by eexists.
  - vm_compute. reflexivity.
Defined.

Lemma delete_then_create_witness :
  volInfo RbdCases.after_delete1 !! "csi-rbd-u" = None /\
  rbdVolumes RbdCases.after_delete1 !! "csi-rbd-u" = None /\
  lookupByName (rbdVolumes RbdCases.after_delete1) "pvc-1" = None.
Proof.
  destruct (delete_then_create RbdExample.healthy RbdExample.cs RbdExample.pvc1
              ∅ RbdExample.empty
              (mkCreateVolumeResponse (mkVolume "csi-rbd-u" 2147483648 ∅))
              RbdExample.after_pvc1 mkDeleteVolumeResponse
              RbdCases.after_delete1
              (fst (CreateVolume RbdExample.healthy RbdExample.cs
                      RbdExample.pvc1 RbdCases.after_delete1))
              (snd (CreateVolume RbdExample.healthy RbdExample.cs
                      RbdExample.pvc1 RbdCases.after_delete1)))
    as (H1 & H2 & H3 & _).
  - apply index_ok_empty.
  - exact healthy_uuid_inj.
  - exact pvc1_fresh.
  - vm_compute. reflexivity.
  - apply surjective_pairing.
  - repeat split; assumption.
Defined.

Lemma unpersisted_volume_stays_witness :
  (exists e',
     fst (DeleteVolume RbdExample.readonly_store RbdExample.cs
            RbdExample.delete1 RbdCases.after_unpersisted)
     = Err (mkStatus Internal e')) /\
  rbdVolumes
    (snd (DeleteVolume RbdExample.readonly_store RbdExample.cs
            RbdExample.delete1 RbdCases.after_unpersisted)) !! "csi-rbd-u"
  = Some RbdExample.vol1.
Proof.
  destruct (unpersisted_volume_stays RbdExample.readonly_store RbdExample.cs
              RbdExample.pvc1 RbdExample.empty
              (fst (CreateVolume RbdExample.readonly_store RbdExample.cs
                      RbdExample.pvc1 RbdExample.empty))
              RbdCases.after_unpersisted "csi-rbd-u" RbdExample.vol1
              "read-only file system" ∅
              (fst (DeleteVolume RbdExample.readonly_store RbdExample.cs
                      RbdExample.delete1 RbdCases.after_unpersisted))
              (snd (DeleteVolume RbdExample.readonly_store RbdExample.cs
                      RbdExample.delete1 RbdCases.after_unpersisted)))
    as (Hr & _ & Hi & _).
  - apply surjective_pairing.
  - vm_compute. in_list.
  - reflexivity.
  - apply surjective_pairing.
  - split; assumption.
Defined.

(** *** Capabilities, again *)

(** X14. Validating two lists of capabilities put end to end gives
    [supported] exactly when both lists are supported; the message is
    always empty. *)
Theorem validateLoop_app caps1 caps2 :
  Supported (validateLoop (caps1 ++ caps2))
  = Supported (validateLoop caps1) && Supported (validateLoop caps2) /\
  Message (validateLoop (caps1 ++ caps2)) = EmptyString.
Proof.
  induction caps1 as [|cap rest IH]; simpl.
  - split; [reflexivity|]. induction caps2 as [|c l IHl]; simpl; [done|].
    by destruct (decide _).
  - by destruct (decide _).
Qed.

End RbdExtra.

(** ** More on the node *)

Module CephfsExtra.
Import Cephfs CephfsRuns CephfsProps.

(** Reads the events of a run off the final world, in the goal only. *)
Ltac emitted_is :=
  apply node_emitted_app;
  cbn [trace log with_nodeCache with_heap with_mounts];
  rewrite <- ?app_assoc; reflexivity.

(** *** Staging: errors and what is left alone *)

(** X16. An error of [NodeStageVolume] is of one of two kinds:
    [InvalidArgument], given before anything is done, with the world as it
    was; or [Internal], given after the mount point was asked for.  No
    other code is used. *)
Theorem NodeStageVolume_error_codes X ns req w st w' :
  NodeStageVolume X ns req w = (Err st, w') ->
  (code st = InvalidArgument /\ w' = w)
  \/ (code st = Internal /\
      exists o, ECreateMountPoint (StageStagingTargetPath req) o ∈ emitted w w').
Proof.
  intros H. run_node H; read_log.
  all: first [ left; split; reflexivity
             | right; split; [reflexivity|]; eexists; in_list ].
Qed.

(** X17. [NodeStageVolume] writes for its own volume and path only: cache
    entries of other volumes are as before and no entry is removed, no
    path stops being a mount point and only the staging path can become
    one, and the objects that existed keep their content. *)
Theorem NodeStageVolume_frame X ns req w :
  let w' := snd (NodeStageVolume X ns req w) in
  (forall k, k <> StageVolumeId req -> nodeCache w' !! k = nodeCache w !! k) /\
  (forall k, is_Some (nodeCache w !! k) -> is_Some (nodeCache w' !! k)) /\
  mounts w ⊆ mounts w' /\
  mounts w' ⊆ mounts w ∪ {[StageStagingTargetPath req]} /\
  (forall p o, heap w !! p = Some o -> heap w' !! p = Some o).
Proof.
  intros w'. subst w'.
  destruct (NodeStageVolume X ns req w) as [r w'] eqn:H. simpl.
  run_node H.
  all: split; [intros k Hk; by rewrite ?lookup_insert_ne|].
  all: split; [intros k Hk;
               destruct (decide (StageVolumeId req = k)) as [<-|Hne];
               [by rewrite ?lookup_insert_eq | by rewrite ?lookup_insert_ne]|].
  all: split; [set_solver|]. all: split; [set_solver|].
  all: intros p o Hp; try done.
  all: pose proof (lookup_lt_Some _ _ _ Hp) as Hlt.
  all: rewrite ?list_lookup_insert_ne by lia.
  all: by rewrite lookup_app_l.
Qed.

(** X20. [NodeStageVolume] can panic in one way only: the entity that the
    cluster gave back for the new user is shorter than the prefix that is
    cut off its name.  The entry inserted before is then in the cache. *)
Theorem NodeStageVolume_panic X ns req w msg w' :
  NodeStageVolume X ns req w = (Panic msg, w') ->
  exists o adminCr ent,
    ECreateCephUser o adminCr (StageVolumeId req) (inr ent) ∈ emitted w w' /\
    String.length (Entity ent) < String.length (cephEntityClientPrefix X) /\
    nodeCache w' !! StageVolumeId req
    = Some (mkNodeCacheEntry (length (heap w)) (id adminCr)) /\
    mounts w' = mounts w.
Proof.
  intros H. run_node H; read_log.
  all: eexists _, _, _; split; [in_list|].
  all: split; [by apply Nat.leb_gt|].
  all: split; [apply lookup_insert_eq | reflexivity].
Qed.

(** *** Unstaging: the ways it ends *)

(** X21. When the cache has no entry for the volume, [NodeUnstageVolume]
    fails with [Internal], but only after the staging path was unmounted
    and its directory removed: the unmount is not undone. *)
Theorem NodeUnstageVolume_no_entry X ns req w r w' :
  NodeUnstageVolume X ns req w = (r, w') ->
  ECachePop (UnstageVolumeId req) None ∈ emitted w w' ->
  r = Err (mkStatus Internal
             ("node cache entry for volume " +:+ UnstageVolumeId req +:+
              " not found")) /\
  nodeCache w' = nodeCache w /\
  mounts w' = mounts w ∖ {[UnstageStagingTargetPath req]} /\
  emitted w w' = [EUnmountVolume (UnstageStagingTargetPath req) None;
                  ERemove (UnstageStagingTargetPath req);
                  ECachePop (UnstageVolumeId req) None].
Proof.
  intros H Hev. run_node H; read_log; elem_cases Hev.
  all: done.
Qed.

(** X22. When the unmount fails, [NodeUnstageVolume] stops at once with
    [Internal]: the directory is not removed, the cache is not read and no
    user is deleted. *)
Theorem NodeUnstageVolume_unmount_failure X ns req w r w' path e :
  NodeUnstageVolume X ns req w = (r, w') ->
  EUnmountVolume path (Some e) ∈ emitted w w' ->
  r = Err (mkStatus Internal e) /\
  nodeCache w' = nodeCache w /\
  mounts w' = mounts w /\
  heap w' = heap w /\
  emitted w w' = [EUnmountVolume (UnstageStagingTargetPath req) (Some e)].
Proof.
  intros H Hev. run_node H; read_log; elem_cases Hev.
  all: done.
Qed.

Lemma NodeUnstageVolume_ok_inv X ns req w resp w' :
  NodeUnstageVolume X ns req w = (Ok resp, w') ->
  exists ent o,
    nodeCache w !! UnstageVolumeId req = Some ent /\
    heap w !! volOptions ent = Some o /\
    nodeCache w' = delete (UnstageVolumeId req) (nodeCache w) /\
    mounts w' = mounts w ∖ {[UnstageStagingTargetPath req]} /\
    emitted w w'
    = [EUnmountVolume (UnstageStagingTargetPath req) None;
       ERemove (UnstageStagingTargetPath req);
       ECachePop (UnstageVolumeId req) (Some ent)] ++
      (if ProvisionVolume o
       then [EDeleteCephUser (mkCredentials (cephAdminID ent) EmptyString)
               (UnstageVolumeId req) None]
       else []).
Proof.
  intros H. run_node H.
  all: eexists _, _; split; [first [eassumption | reflexivity]|].
  all: split; [first [eassumption | reflexivity]|].
  all: split; [reflexivity|]. all: split; [reflexivity|].
  all: match goal with Hb : ProvisionVolume _ = _ |- _ => rewrite ?Hb end.
  all: emitted_is.
Qed.

(** X23. A successful [NodeUnstageVolume] deletes a user exactly when the
    cached options say that the volume was provisioned dynamically, and
    then with the admin ID kept in the entry and an empty key; the entry is
    taken out of the cache. *)
Theorem NodeUnstageVolume_success X ns req w resp w' :
  NodeUnstageVolume X ns req w = (Ok resp, w') ->
  exists ent o,
    nodeCache w !! UnstageVolumeId req = Some ent /\
    heap w !! volOptions ent = Some o /\
    nodeCache w' = delete (UnstageVolumeId req) (nodeCache w) /\
    emitted w w'
    = [EUnmountVolume (UnstageStagingTargetPath req) None;
       ERemove (UnstageStagingTargetPath req);
       ECachePop (UnstageVolumeId req) (Some ent)] ++
      (if ProvisionVolume o
       then [EDeleteCephUser (mkCredentials (cephAdminID ent) EmptyString)
               (UnstageVolumeId req) None]
       else []).
Proof.
  intros H.
  destruct (NodeUnstageVolume_ok_inv _ _ _ _ _ _ H)
    as (ent & o & He & Ho & Hc & _ & Hevs).
  by exists ent, o.
Qed.

(** *** Publishing *)

(** X26. [NodePublishVolume] on a target that is a mount point already
    answers with success without a bind mount; on a target that is not, a
    successful call makes exactly one bind mount, from the staging path to
    the target with the read-only flag of the request.  Neither touches the
    cache. *)
Theorem NodePublishVolume_mounts_once X ns req w resp w' :
  NodePublishVolume X ns req w = (Ok resp, w') ->
  nodeCache w' = nodeCache w /\
  heap w' = heap w /\
  PublishTargetPath req ∈ mounts w' /\
  if bool_decide (PublishTargetPath req ∈ mounts w)
  then mounts w' = mounts w /\
       emitted w w' = [ECreateMountPoint (PublishTargetPath req) None;
                       EIsMountPoint (PublishTargetPath req) (inr true)]
  else mounts w' = {[PublishTargetPath req]} ∪ mounts w /\
       emitted w w' = [ECreateMountPoint (PublishTargetPath req) None;
                       EIsMountPoint (PublishTargetPath req) (inr false);
                       EBindMount (PublishStagingTargetPath req)
                         (PublishTargetPath req) (Readonly req) None].
Proof.
  intros H. run_node H; read_log.
  all: match goal with Hb : bool_decide _ = _ |- _ => rewrite ?Hb end.
  all: probe_facts.
  all: repeat split; try done; set_solver.
Qed.

(** X28. [NodeUnpublishVolume] succeeds exactly when the request is well
    formed and the unmount succeeds; the removal of the directory is then
    attempted and its result is not looked at.  When it does not succeed
    the mount table is as before.  The cache is never touched. *)
Theorem NodeUnpublishVolume_outcome X ns req w r w' :
  NodeUnpublishVolume X ns req w = (r, w') ->
  nodeCache w' = nodeCache w /\
  heap w' = heap w /\
  (r = Ok mkNodeUnpublishVolumeResponse
   <-> EUnmountVolume (UnpublishTargetPath req) None ∈ emitted w w') /\
  (r = Ok mkNodeUnpublishVolumeResponse ->
   emitted w w' = [EUnmountVolume (UnpublishTargetPath req) None;
                   ERemove (UnpublishTargetPath req)] /\
   mounts w' = mounts w ∖ {[UnpublishTargetPath req]}) /\
  (r <> Ok mkNodeUnpublishVolumeResponse -> mounts w' = mounts w).
Proof.
  intros H. run_node H; read_log.
  all: repeat split; try done.
  all: try (intros Hin; first [in_list | elem_cases Hin]).
Qed.

(** *** Staging: what a successful call has done *)

Lemma insert_last (h : list volumeOptions) o x :
  <[length h := x]> (h ++ [o]) = h ++ [x].
Proof.
  rewrite <- (Nat.add_0_r (length h)) at 1. by rewrite insert_app_r.
Qed.

Lemma NodeStageVolume_staged_inv X ns req w resp w' :
  NodeStageVolume X ns req w = (Ok resp, w') ->
  StageStagingTargetPath req ∉ mounts w ->
  let path := StageStagingTargetPath req in
  let volId := StageVolumeId req in
  let p := length (heap w) in
  exists o cr,
    newVolumeOptions_parse X (VolumeAttributes req) = inr o /\
    mounts w' = {[path]} ∪ mounts w /\
    if ProvisionVolume o then
      exists adminCr ent,
        let o' := with_RootPath (getVolumeRootPath_ceph X volId) o in
        getAdminCredentials X (NodeStageSecrets req) = inr adminCr /\
        cr = mkCredentials (userIdOf X ent) (Key ent) /\
        nodeCache w' = <[volId := mkNodeCacheEntry p (id adminCr)]> (nodeCache w) /\
        heap w' = heap w ++ [o'] /\
        emitted w w'
        = [ECreateMountPoint path None;
           EWriteToFile (mkCephConfigData (Monitors o) volId) None;
           EIsMountPoint path (inr false);
           EStoreCephCredentials volId adminCr None;
           ECacheInsert volId (mkNodeCacheEntry p (id adminCr));
           ECreateCephUser o adminCr volId (inr ent);
           EStoreCephCredentials volId cr None;
           EMount path cr o' volId None]
    else
      getUserCredentials X (NodeStageSecrets req) = inr cr /\
      nodeCache w' = <[volId := mkNodeCacheEntry p EmptyString]> (nodeCache w) /\
      heap w' = heap w ++ [o] /\
      emitted w w'
      = [ECreateMountPoint path None;
         EWriteToFile (mkCephConfigData (Monitors o) volId) None;
         EIsMountPoint path (inr false);
         ECacheInsert volId (mkNodeCacheEntry p EmptyString);
         EStoreCephCredentials volId cr None;
         EMount path cr o volId None].
Proof.
  intros H Hnot. run_node H.
  all: try (match goal with Hb : bool_decide _ = true |- _ =>
              apply bool_decide_eq_true in Hb end; contradiction).
  all: eexists _, _; split; [reflexivity|]; split; [reflexivity|].
  all: match goal with Hb : ProvisionVolume _ = _ |- _ => rewrite ?Hb end.
  all: try (eexists _, _; cbn zeta).
  all: match goal with Hb : bool_decide _ = false |- _ => rewrite ?Hb end.
  all: repeat match goal with |- _ /\ _ => split end.
  all: cbn [heap log with_heap with_nodeCache with_mounts].
  all: first [ reflexivity | rewrite insert_last; reflexivity | emitted_is ].
Qed.

Lemma substring_all (s : string) : String.substring 0 (String.length s) s = s.
Proof. induction s as [|a s IH]; simpl; [done | by rewrite IH]. Qed.

Lemma substring_after (p n : string) :
  String.substring (String.length p) (String.length (p +:+ n) - String.length p)
    (p +:+ n) = n.
Proof.
  induction p as [|a p IH]; simpl.
  - rewrite Nat.sub_0_r. apply substring_all.
  - exact IH.
Qed.

(** X18. Staging a pre-made volume: a successful call on a path that was
    not mounted creates no user; it puts an entry without admin ID in the
    cache, stores the credentials that came with the request and mounts
    with them. *)
Theorem NodeStageVolume_premade X ns req w resp w' o :
  NodeStageVolume X ns req w = (Ok resp, w') ->
  StageStagingTargetPath req ∉ mounts w ->
  newVolumeOptions_parse X (VolumeAttributes req) = inr o ->
  ProvisionVolume o = false ->
  exists cr,
    getUserCredentials X (NodeStageSecrets req) = inr cr /\
    nodeCache w' !! StageVolumeId req
    = Some (mkNodeCacheEntry (length (heap w)) EmptyString) /\
    heap w' !! length (heap w) = Some o /\
    emitted w w'
    = [ECreateMountPoint (StageStagingTargetPath req) None;
       EWriteToFile (mkCephConfigData (Monitors o) (StageVolumeId req)) None;
       EIsMountPoint (StageStagingTargetPath req) (inr false);
       ECacheInsert (StageVolumeId req)
         (mkNodeCacheEntry (length (heap w)) EmptyString);
       EStoreCephCredentials (StageVolumeId req) cr None;
       EMount (StageStagingTargetPath req) cr o (StageVolumeId req) None].
Proof.
  intros H Hnot Hp Hb.
  destruct (NodeStageVolume_staged_inv _ _ _ _ _ _ H Hnot)
    as (o' & cr & Hp' & _ & Hcases).
  rewrite Hp in Hp'. injection Hp' as <-. rewrite Hb in Hcases.
  destruct Hcases as (Hu & Hc & Hh & Hevs).
  exists cr. rewrite Hc, Hh, lookup_insert_eq.
  repeat split; try done. by apply list_lookup_middle.
Qed.

(** X19. Staging a dynamically provisioned volume: a successful call on a
    path that was not mounted keeps the ID of the admin in the entry; the
    options the entry points to carry the root path of the volume, although
    it was set after the entry was inserted; the mount is made with these
    options and with the user whose ID is the entity name without its first
    characters, as many as the prefix has.  For an entity named with the
    prefix, this is the name after the prefix. *)
Theorem NodeStageVolume_dynamic X ns req w resp w' o :
  NodeStageVolume X ns req w = (Ok resp, w') ->
  StageStagingTargetPath req ∉ mounts w ->
  newVolumeOptions_parse X (VolumeAttributes req) = inr o ->
  ProvisionVolume o = true ->
  exists adminCr ent userCr,
    let o' := with_RootPath (getVolumeRootPath_ceph X (StageVolumeId req)) o in
    getAdminCredentials X (NodeStageSecrets req) = inr adminCr /\
    ECreateCephUser o adminCr (StageVolumeId req) (inr ent) ∈ emitted w w' /\
    nodeCache w' !! StageVolumeId req
    = Some (mkNodeCacheEntry (length (heap w)) (id adminCr)) /\
    heap w' !! length (heap w) = Some o' /\
    EMount (StageStagingTargetPath req) userCr o' (StageVolumeId req) None
    ∈ emitted w w' /\
    key userCr = Key ent /\
    String.length (cephEntityClientPrefix X) <= String.length (Entity ent) /\
    (forall name, Entity ent = cephEntityClientPrefix X +:+ name ->
                  id userCr = name).
Proof.
  intros H Hnot Hp Hb.
  destruct (NodeStageVolume_staged_inv _ _ _ _ _ _ H Hnot)
    as (o' & cr & Hp' & _ & Hcases).
  rewrite Hp in Hp'. injection Hp' as <-. rewrite Hb in Hcases.
  destruct Hcases as (adminCr & ent & Ha & -> & Hc & Hh & Hevs).
  exists adminCr, ent, (mkCredentials (userIdOf X ent) (Key ent)).
  cbn zeta. rewrite Hc, Hh, Hevs, lookup_insert_eq.
  split; [done|]. split; [in_list|]. split; [done|].
  split; [by apply list_lookup_middle|]. split; [in_list|]. split; [done|].
  split.
  - revert H. clear -Hevs. intros H. run_node H; read_log; simplify_eq/=.
    all: by apply Nat.leb_le.
  - intros name Hname. simpl. unfold userIdOf. rewrite Hname.
    apply substring_after.
Qed.

(** *** Calls one after the other *)

(** X24. Staging and unstaging a volume, both with success, on a path that
    was not mounted and with no entry in the cache to begin with, brings
    the mount table and the cache back to where they were; a user that was
    created on the way in is deleted on the way out, with the ID of the
    admin that created it, and when none was created none is deleted. *)
Theorem stage_unstage_round_trip X ns sreq ureq w0 r1 w1 r2 w2 :
  UnstageVolumeId ureq = StageVolumeId sreq ->
  UnstageStagingTargetPath ureq = StageStagingTargetPath sreq ->
  StageStagingTargetPath sreq ∉ mounts w0 ->
  nodeCache w0 !! StageVolumeId sreq = None ->
  NodeStageVolume X ns sreq w0 = (Ok r1, w1) ->
  NodeUnstageVolume X ns ureq w1 = (Ok r2, w2) ->
  mounts w2 = mounts w0 /\
  nodeCache w2 = nodeCache w0 /\
  (forall o adminCr v ent,
     ECreateCephUser o adminCr v (inr ent) ∈ emitted w0 w1 ->
     EDeleteCephUser (mkCredentials (id adminCr) EmptyString)
       (StageVolumeId sreq) None ∈ emitted w1 w2) /\
  ((forall o adminCr v r, ECreateCephUser o adminCr v r ∉ emitted w0 w1) ->
   forall adminCr v e, EDeleteCephUser adminCr v e ∉ emitted w1 w2).
Proof.
  intros Hid Hpath Hnot Hfree H1 H2.
  destruct (NodeStageVolume_staged_inv _ _ _ _ _ _ H1 Hnot)
    as (o & cr & _ & Hm1 & Hcases).
  destruct (NodeUnstageVolume_ok_inv _ _ _ _ _ _ H2)
    as (ent & o2 & He & Ho2 & Hc2 & Hm2 & Hevs2).
  rewrite Hid in He, Hc2, Hevs2. rewrite Hpath in Hm2, Hevs2.
  assert (mounts w2 = mounts w0) as Hmounts.
  { rewrite Hm2, Hm1. set_solver. }
  destruct (ProvisionVolume o) eqn:Hb.
  - destruct Hcases as (adminCr & ent1 & _ & -> & Hc1 & Hh1 & Hevs1).
    rewrite Hc1, lookup_insert_eq in He. injection He as <-.
    simpl in Ho2. rewrite Hh1, list_lookup_middle in Ho2 by done.
    injection Ho2 as <-. simpl in Hevs2. rewrite Hb in Hevs2.
    split; [done|]. split; [by rewrite Hc2, Hc1, delete_insert_id|].
    split.
    + intros o' a' v' ent' Hin. rewrite Hevs1 in Hin. elem_cases Hin.
      rewrite Hevs2. in_list.
    + intros Hno. exfalso. apply (Hno o adminCr (StageVolumeId sreq) (inr ent1)).
      rewrite Hevs1. in_list.
  - destruct Hcases as (_ & Hc1 & Hh1 & Hevs1).
    rewrite Hc1, lookup_insert_eq in He. injection He as <-.
    simpl in Ho2. rewrite Hh1, list_lookup_middle in Ho2 by done.
    injection Ho2 as <-. rewrite Hb in Hevs2.
    split; [done|]. split; [by rewrite Hc2, Hc1, delete_insert_id|].
    split.
    + intros o' a' v' ent' Hin. rewrite Hevs1 in Hin. elem_cases Hin.
    + intros _ a' v' e' Hin. rewrite Hevs2 in Hin. simpl in Hin.
      elem_cases Hin.
Qed.

(** X25. Trying again after a failed deletion of the user: when
    [NodeUnstageVolume] has failed because the user could not be deleted,
    a second call for the same request that succeeds deletes the user with
    the same admin credentials, and the entry is then gone for good. *)
Theorem unstage_retry X ns req w0 r1 w1 cr volId e r2 w2 :
  NodeUnstageVolume X ns req w0 = (r1, w1) ->
  EDeleteCephUser cr volId (Some e) ∈ emitted w0 w1 ->
  NodeUnstageVolume X ns req w1 = (Ok r2, w2) ->
  EDeleteCephUser cr volId None ∈ emitted w1 w2 /\
  volId = UnstageVolumeId req /\
  nodeCache w2 = delete (UnstageVolumeId req) (nodeCache w0) /\
  (UnstageStagingTargetPath req ∉ mounts w2).
Proof.
  intros H1 Hev H2.
  destruct (NodeUnstageVolume_ok_inv _ _ _ _ _ _ H2)
    as (ent & o & He & Ho & Hc2 & Hm2 & Hevs2).
  rewrite Hc2, Hm2, Hevs2. clear H2 Hc2 Hm2 Hevs2.
  run_node H1; read_log; elem_cases Hev.
  rewrite lookup_insert_eq in He. injection He as <-.
  assert (ProvisionVolume o = true) as -> by congruence.
  split; [in_list|]. split; [done|].
  split; [by rewrite delete_insert_eq, delete_delete_eq|].
  intros [_ Hn]%elem_of_difference. apply Hn. by apply elem_of_singleton.
Qed.

Lemma node_emitted_2 (w w' : World) e1 e2 :
  trace w' = (trace w ++ [e1]) ++ [e2] -> emitted w w' = [e1; e2].
Proof. intros H. apply node_emitted_app. by rewrite H, <- app_assoc. Qed.

(** X27. Publishing and unpublishing a target that was not mounted, both
    with success, leaves the mount table as it was; the directory of the
    target is removed, and the cache and the objects are not touched. *)
Theorem publish_unpublish_round_trip X ns preq ureq w0 r1 w1 r2 w2 :
  UnpublishTargetPath ureq = PublishTargetPath preq ->
  PublishTargetPath preq ∉ mounts w0 ->
  NodePublishVolume X ns preq w0 = (Ok r1, w1) ->
  NodeUnpublishVolume X ns ureq w1 = (Ok r2, w2) ->
  mounts w2 = mounts w0 /\
  nodeCache w2 = nodeCache w0 /\
  heap w2 = heap w0 /\
  ERemove (PublishTargetPath preq) ∈ emitted w1 w2.
Proof.
  intros Hpath Hnot H1 H2.
  run_node H1; run_node H2; probe_facts; try contradiction.
  rewrite Hpath in *. split; [set_solver|]. split; [done|]. split; [done|].
  erewrite node_emitted_2 by reflexivity. in_list.
Qed.

(** *** The properties at work *)

Ltac not_mounted := apply (bool_decide_eq_false_1 _); vm_compute; reflexivity.

Lemma NodeStageVolume_error_codes_witness :
  code (mkStatus Internal "auth get-or-create failed") = Internal /\
  exists o,
    ECreateMountPoint "/staging/vol-1" o
    ∈ emitted CephfsExample.empty (snd CephfsExample.stage_without_users).
Proof.
  destruct (NodeStageVolume_error_codes CephfsExample.no_new_users
              CephfsExample.ns CephfsExample.stage1 CephfsExample.empty
              (mkStatus Internal "auth get-or-create failed")
              (snd CephfsExample.stage_without_users))
    as [(Hc & _) | H].
  - vm_compute. reflexivity.
  - discriminate.
  - exact H.
Defined.

Lemma NodeStageVolume_frame_witness :
  nodeCache CephfsExample.staged !! "vol-2"
  = nodeCache CephfsExample.empty !! "vol-2".
Proof.
  apply (proj1 (NodeStageVolume_frame CephfsExample.healthy CephfsExample.ns
                  CephfsExample.stage1 CephfsExample.empty)).
  discriminate.
Defined.

Lemma NodeStageVolume_panic_witness :
  exists o adminCr ent,
    ECreateCephUser o adminCr "vol-1" (inr ent)
    ∈ emitted CephfsExample.empty
        (snd (NodeStageVolume CephfsCases.short_entity CephfsExample.ns
                CephfsExample.stage1 CephfsExample.empty)) /\
    String.length (Entity ent) < 7 /\
    nodeCache (snd (NodeStageVolume CephfsCases.short_entity CephfsExample.ns
                      CephfsExample.stage1 CephfsExample.empty)) !! "vol-1"
    = Some (mkNodeCacheEntry 0 (id adminCr)) /\
    mounts (snd (NodeStageVolume CephfsCases.short_entity CephfsExample.ns
                   CephfsExample.stage1 CephfsExample.empty)) = ∅.
Proof.
  apply (NodeStageVolume_panic CephfsCases.short_entity CephfsExample.ns
           CephfsExample.stage1 CephfsExample.empty
           "slice bounds out of range").
  vm_compute. reflexivity.
Defined.

Lemma NodeUnstageVolume_no_entry_witness :
  fst (NodeUnstageVolume CephfsExample.healthy CephfsExample.ns
         CephfsExample.unstage1 CephfsExample.empty)
  = Err (mkStatus Internal "node cache entry for volume vol-1 not found").
Proof.
  refine (proj1 (NodeUnstageVolume_no_entry CephfsExample.healthy
                   CephfsExample.ns CephfsExample.unstage1 CephfsExample.empty
                   _ _ (surjective_pairing _) _)).
  vm_compute. in_list.
Defined.

Lemma NodeUnstageVolume_unmount_failure_witness :
  fst (NodeUnstageVolume CephfsCases.busy CephfsExample.ns
         CephfsExample.unstage1 CephfsExample.staged)
  = Err (mkStatus Internal "target is busy").
Proof.
  refine (proj1 (NodeUnstageVolume_unmount_failure CephfsCases.busy
                   CephfsExample.ns CephfsExample.unstage1 CephfsExample.staged
                   _ _ "/staging/vol-1" "target is busy"
                   (surjective_pairing _) _)).
  vm_compute. in_list.
Defined.

Lemma NodeUnstageVolume_success_witness :
  exists ent o,
    nodeCache CephfsExample.staged !! "vol-1" = Some ent /\
    heap CephfsExample.staged !! volOptions ent = Some o /\
    nodeCache (snd CephfsExample.unstaged)
    = delete "vol-1" (nodeCache CephfsExample.staged) /\
    emitted CephfsExample.staged (snd CephfsExample.unstaged)
    = [EUnmountVolume "/staging/vol-1" None;
       ERemove "/staging/vol-1";
       ECachePop "vol-1" (Some ent)] ++
      (if ProvisionVolume o
       then [EDeleteCephUser (mkCredentials (cephAdminID ent) EmptyString)
               "vol-1" None]
       else []).
Proof.
  apply (NodeUnstageVolume_success CephfsExample.healthy CephfsExample.ns
           CephfsExample.unstage1 CephfsExample.staged
           mkNodeUnstageVolumeResponse).
  vm_compute. reflexivity.
Defined.

Lemma NodePublishVolume_mounts_once_witness :
  "/pods/a/vol-1" ∈ mounts CephfsCases.published /\
  nodeCache CephfsCases.published = nodeCache CephfsExample.staged.
Proof.
  destruct (NodePublishVolume_mounts_once CephfsExample.healthy
              CephfsExample.ns CephfsCases.publish1 CephfsExample.staged
              mkNodePublishVolumeResponse CephfsCases.published)
    as (Hc & _ & Hm & _).
  - vm_compute. reflexivity.
  - split; assumption.
Defined.

Lemma NodeUnpublishVolume_outcome_witness :
  nodeCache (snd (NodeUnpublishVolume CephfsExample.healthy CephfsExample.ns
                    CephfsCases.unpublish1 CephfsCases.published))
  = nodeCache CephfsCases.published.
Proof.
  refine (proj1 (NodeUnpublishVolume_outcome CephfsExample.healthy
                   CephfsExample.ns CephfsCases.unpublish1
                   CephfsCases.published _ _ (surjective_pairing _))).
Defined.

Lemma NodeStageVolume_premade_witness :
  exists cr,
    getUserCredentials CephfsCases.healthy_premade
      (NodeStageSecrets CephfsExample.stage1) = inr cr /\
    nodeCache CephfsCases.staged_premade !! "vol-1"
    = Some (mkNodeCacheEntry 0 EmptyString) /\
    heap CephfsCases.staged_premade !! 0 = Some CephfsCases.premade /\
    emitted CephfsExample.empty CephfsCases.staged_premade
    = [ECreateMountPoint "/staging/vol-1" None;
       EWriteToFile (mkCephConfigData "mon1:6789" "vol-1") None;
       EIsMountPoint "/staging/vol-1" (inr false);
       ECacheInsert "vol-1" (mkNodeCacheEntry 0 EmptyString);
       EStoreCephCredentials "vol-1" cr None;
       EMount "/staging/vol-1" cr CephfsCases.premade "vol-1" None].
Proof.
  apply (NodeStageVolume_premade CephfsCases.healthy_premade CephfsExample.ns
           CephfsExample.stage1 CephfsExample.empty mkNodeStageVolumeResponse
           CephfsCases.staged_premade CephfsCases.premade).
  - vm_compute. reflexivity.
  - not_mounted.
  - reflexivity.
  - reflexivity.
Defined.

Lemma NodeStageVolume_dynamic_witness :
  exists adminCr ent userCr,
    let o' := with_RootPath "/csi-volumes/vol-1" CephfsExample.dynamic in
    getAdminCredentials CephfsExample.healthy
      (NodeStageSecrets CephfsExample.stage1) = inr adminCr /\
    ECreateCephUser CephfsExample.dynamic adminCr "vol-1" (inr ent)
    ∈ emitted CephfsExample.empty CephfsExample.staged /\
    nodeCache CephfsExample.staged !! "vol-1"
    = Some (mkNodeCacheEntry 0 (id adminCr)) /\
    heap CephfsExample.staged !! 0 = Some o' /\
    EMount "/staging/vol-1" userCr o' "vol-1" None
    ∈ emitted CephfsExample.empty CephfsExample.staged /\
    key userCr = Key ent /\
    7 <= String.length (Entity ent) /\
    (forall name, Entity ent = "client." +:+ name -> id userCr = name).
Proof.
  apply (NodeStageVolume_dynamic CephfsExample.healthy CephfsExample.ns
           CephfsExample.stage1 CephfsExample.empty mkNodeStageVolumeResponse
           CephfsExample.staged CephfsExample.dynamic).
  - exact stage1_fresh.
  - not_mounted.
  - reflexivity.
  - reflexivity.
Defined.

Lemma stage_unstage_round_trip_witness :
  mounts (snd CephfsExample.unstaged) = mounts CephfsExample.empty /\
  nodeCache (snd CephfsExample.unstaged) = nodeCache CephfsExample.empty.
Proof.
  destruct (stage_unstage_round_trip CephfsExample.healthy CephfsExample.ns
              CephfsExample.stage1 CephfsExample.unstage1 CephfsExample.empty
              mkNodeStageVolumeResponse CephfsExample.staged
              mkNodeUnstageVolumeResponse (snd CephfsExample.unstaged))
    as (Hm & Hc & _).
  - reflexivity.
  - reflexivity.
  - not_mounted.
  - reflexivity.
  - exact stage1_fresh.
  - vm_compute. reflexivity.
  - split; assumption.
Defined.

Lemma unstage_retry_witness :
  EDeleteCephUser (mkCredentials "admin" EmptyString) "vol-1" None
  ∈ emitted CephfsCases.half_unstaged
      (snd (NodeUnstageVolume CephfsCases.flaky_deletion CephfsExample.ns
              CephfsExample.unstage1 CephfsCases.half_unstaged)).
Proof.
  refine (proj1 (unstage_retry CephfsCases.flaky_deletion CephfsExample.ns
                   CephfsExample.unstage1 CephfsExample.staged
                   (fst (NodeUnstageVolume CephfsCases.flaky_deletion
                           CephfsExample.ns CephfsExample.unstage1
                           CephfsExample.staged))
                   CephfsCases.half_unstaged
                   (mkCredentials "admin" EmptyString) "vol-1"
                   "auth del failed" mkNodeUnstageVolumeResponse _ _ _ _)).
  - apply surjective_pairing.
  - vm_compute. in_list.
  - vm_compute. reflexivity.
Defined.

Lemma publish_unpublish_round_trip_witness :
  mounts (snd (NodeUnpublishVolume CephfsExample.healthy CephfsExample.ns
                 CephfsCases.unpublish1 CephfsCases.published))
  = mounts CephfsExample.staged.
Proof.
  refine (proj1 (publish_unpublish_round_trip CephfsExample.healthy
                   CephfsExample.ns CephfsCases.publish1 CephfsCases.unpublish1
                   CephfsExample.staged mkNodePublishVolumeResponse
                   CephfsCases.published mkNodeUnpublishVolumeResponse _
                   _ _ _ _)).
  - reflexivity.
  - not_mounted.
  - vm_compute. reflexivity.
  - vm_compute. reflexivity.
Defined.

End CephfsExtra.
